(** * microTCP: the handshake, teardown and header codec of src/lib/microtcp.c

    A shallow embedding of the C source.  Machine integers are [Z] with the
    wrap-around written out, memory is a list of bytes, and the calls into
    the operating system (sendto, recvfrom, malloc, rand) act on an explicit
    [world] that is threaded through the code by a small state monad. *)

From Stdlib Require Import ZArith List Bool Lia.
Import ListNotations.
Local Open Scope Z_scope.

(** ** Machine integers *)

Definition u8 (x : Z) : Z := x mod 2 ^ 8.
Definition u16 (x : Z) : Z := x mod 2 ^ 16.
Definition u32 (x : Z) : Z := x mod 2 ^ 32.
Definition u64 (x : Z) : Z := x mod 2 ^ 64.

(** Conversion of an [ssize_t] to [size_t] on an LP64 target. *)
Definition size_t_of (x : Z) : Z := u64 x.

(** [if (x)] on an integer. *)
Definition truthy (x : Z) : bool := negb (x =? 0).

(** ** Byte order *)

Inductive byte_order : Type := LittleEndian | BigEndian.

Definition bswap16 (x : Z) : Z :=
  Z.lor (Z.shiftl (Z.land x 255) 8) (Z.land (Z.shiftr x 8) 255).

Definition bswap32 (x : Z) : Z :=
  Z.lor (Z.shiftl (Z.land x 255) 24)
    (Z.lor (Z.shiftl (Z.land (Z.shiftr x 8) 255) 16)
       (Z.lor (Z.shiftl (Z.land (Z.shiftr x 16) 255) 8)
          (Z.land (Z.shiftr x 24) 255))).

Definition htons (host : byte_order) (x : Z) : Z :=
  match host with LittleEndian => bswap16 x | BigEndian => u16 x end.

Definition htonl (host : byte_order) (x : Z) : Z :=
  match host with LittleEndian => bswap32 x | BigEndian => u32 x end.

Definition ntohs := htons.
Definition ntohl := htonl.

(** ** Memory: a pointer is modelled by the bytes found from its target on *)

Definition memory := list Z.

(** The first [n] bytes found at a pointer. *)
Fixpoint read (mem : memory) (n : Z) : memory :=
  match mem with
  | [] => []
  | b :: mem' => if n <=? 0 then [] else b :: read mem' (n - 1)
  end.

(** What lies behind the first [n] bytes. *)
Fixpoint skip (mem : memory) (n : Z) : memory :=
  match mem with
  | [] => []
  | b :: mem' => if n <=? 0 then mem else skip mem' (n - 1)
  end.

(** [memcpy(dst, src, n)]: the first [n] bytes of [dst] are replaced. *)
Definition memcpy (dst src : memory) (n : Z) : memory :=
  read src n ++ skip dst n.

Definition byte_at (mem : memory) (off : nat) : Z := nth off mem 0.

Definition load16 (host : byte_order) (mem : memory) (off : nat) : Z :=
  let b0 := byte_at mem off in
  let b1 := byte_at mem (off + 1) in
  match host with
  | LittleEndian => Z.lor b0 (Z.shiftl b1 8)
  | BigEndian => Z.lor (Z.shiftl b0 8) b1
  end.

Definition load32 (host : byte_order) (mem : memory) (off : nat) : Z :=
  let b0 := byte_at mem off in
  let b1 := byte_at mem (off + 1) in
  let b2 := byte_at mem (off + 2) in
  let b3 := byte_at mem (off + 3) in
  match host with
  | LittleEndian =>
      Z.lor b0 (Z.lor (Z.shiftl b1 8) (Z.lor (Z.shiftl b2 16) (Z.shiftl b3 24)))
  | BigEndian =>
      Z.lor (Z.shiftl b0 24) (Z.lor (Z.shiftl b1 16) (Z.lor (Z.shiftl b2 8) b3))
  end.

Definition store16 (host : byte_order) (x : Z) : memory :=
  let lo := Z.land x 255 in
  let hi := Z.land (Z.shiftr x 8) 255 in
  match host with
  | LittleEndian => [lo; hi]
  | BigEndian => [hi; lo]
  end.

Definition store32 (host : byte_order) (x : Z) : memory :=
  let b0 := Z.land x 255 in
  let b1 := Z.land (Z.shiftr x 8) 255 in
  let b2 := Z.land (Z.shiftr x 16) 255 in
  let b3 := Z.land (Z.shiftr x 24) 255 in
  match host with
  | LittleEndian => [b0; b1; b2; b3]
  | BigEndian => [b3; b2; b1; b0]
  end.

(** ** The segment header *)

(** Modelled from the spec: the declaration of [microtcp_header_t] is in
    microtcp.h, which is not part of the sources at hand; the fields and
    their widths follow the wire format
    seq(32) | ack(32) | control(16) | window(16) | data_len(32) |
    reserved(32)x3 | checksum(32), with the field names the C code uses. *)
Record microtcp_header_t : Type := mkHeader {
  h_seq_number : Z;
  h_ack_number : Z;
  h_control : Z;
  h_window : Z;
  h_data_len : Z;
  h_future_use0 : Z;
  h_future_use1 : Z;
  h_future_use2 : Z;
  h_checksum : Z
}.

Definition sizeof_header : Z := 32.

(** Byte offset of the [checksum] member. *)
Definition offsetof_checksum : nat := 28.

(** Modelled from the spec: the bit positions [ACK_F], [RST_F], [SYN_F] and
    [FIN_F] are defined in microtcp.h; the wire format gives
    bit0=ACK bit1=RST bit2=SYN bit3=FIN. *)
Definition ACK_F : Z := 0.
Definition RST_F : Z := 1.
Definition SYN_F : Z := 2.
Definition FIN_F : Z := 3.

Definition set_checksum (h : microtcp_header_t) (c : Z) : microtcp_header_t :=
  mkHeader (h_seq_number h) (h_ack_number h) (h_control h) (h_window h)
    (h_data_len h) (h_future_use0 h) (h_future_use1 h) (h_future_use2 h) c.

Definition set_bit (data pos : Z) : Z := u16 (Z.lor data (Z.shiftl 1 pos)).

Definition get_bit (data pos : Z) : Z := u16 (Z.land (Z.shiftr data pos) 1).

(** ** CRC-32 *)

(** Modelled from the spec: [crc32] lives in ../utils/crc32.h, which is not
    part of the sources at hand; the spec describes it as a pure function
    from bytes to a 32-bit cyclic redundancy check.  This is the usual
    reflected CRC-32 (polynomial 0xEDB88320, initial value and final xor
    0xFFFFFFFF), computed bit by bit.  The protocol code below is written
    against an arbitrary [crc32]; this instance is used to run it. *)
Definition crc32_shift (crc : Z) : Z :=
  if Z.testbit crc 0 then Z.lxor (Z.shiftr crc 1) 0xEDB88320
  else Z.shiftr crc 1.

Definition crc32_byte (crc b : Z) : Z :=
  let c := Z.lxor crc b in
  crc32_shift (crc32_shift (crc32_shift (crc32_shift
    (crc32_shift (crc32_shift (crc32_shift (crc32_shift c))))))).

Definition crc32_ieee (buf : memory) : Z :=
  Z.lxor (fold_left crc32_byte buf 0xFFFFFFFF) 0xFFFFFFFF.

(** ** Socket addresses *)

Record sockaddr : Type := mkSockaddr {
  sa_family : Z;
  sa_data : memory
}.

(** [strcmp] on two character arrays; running off the bytes that are
    modelled reads as the terminating NUL. *)
Fixpoint strcmp (a b : memory) : Z :=
  match a, b with
  | [], [] => 0
  | [], y :: _ => 0 - y
  | x :: _, [] => x
  | x :: a', y :: b' =>
      if x =? y then (if x =? 0 then 0 else strcmp a' b') else x - y
  end.

Definition is_equal_addresses (a b : sockaddr) : bool :=
  if negb (sa_family a =? sa_family b) then false
  else if negb (strcmp (sa_data a) (sa_data b) =? 0) then false
  else true.

(** ** The connection *)

(** The states the C code names; the enumeration itself is declared in
    microtcp.h. *)
Inductive microtcp_state_t : Type :=
  | UNKNOWN
  | ESTABLISHED
  | CLOSING_BY_PEER
  | CLOSING_BY_HOST
  | CLOSED
  | INVALID.

(** Modelled from the spec: [microtcp_sock_t] is declared in microtcp.h,
    which is not part of the sources at hand.  The members are those the C
    code touches; the spec makes the sequence counters modular 32-bit
    counters, the statistics are 64-bit counters. *)
Record microtcp_sock_t : Type := mkSock {
  sd : Z;
  state : microtcp_state_t;
  init_win_size : Z;
  curr_win_size : Z;
  recvbuf : memory;
  buf_fill_level : Z;
  seq_number : Z;
  ack_number : Z;
  packets_send : Z;
  packets_received : Z;
  packets_lost : Z;
  bytes_send : Z;
  bytes_received : Z;
  bytes_lost : Z;
  address : sockaddr;
  address_len : Z
}.

Definition set_state (s : microtcp_sock_t) (v : microtcp_state_t) :=
  mkSock (sd s) v (init_win_size s) (curr_win_size s) (recvbuf s)
    (buf_fill_level s) (seq_number s) (ack_number s) (packets_send s)
    (packets_received s) (packets_lost s) (bytes_send s) (bytes_received s)
    (bytes_lost s) (address s) (address_len s).

Definition set_init_win_size (s : microtcp_sock_t) (v : Z) :=
  mkSock (sd s) (state s) v (curr_win_size s) (recvbuf s)
    (buf_fill_level s) (seq_number s) (ack_number s) (packets_send s)
    (packets_received s) (packets_lost s) (bytes_send s) (bytes_received s)
    (bytes_lost s) (address s) (address_len s).

Definition set_curr_win_size (s : microtcp_sock_t) (v : Z) :=
  mkSock (sd s) (state s) (init_win_size s) v (recvbuf s)
    (buf_fill_level s) (seq_number s) (ack_number s) (packets_send s)
    (packets_received s) (packets_lost s) (bytes_send s) (bytes_received s)
    (bytes_lost s) (address s) (address_len s).

Definition set_recvbuf (s : microtcp_sock_t) (v : memory) :=
  mkSock (sd s) (state s) (init_win_size s) (curr_win_size s) v
    (buf_fill_level s) (seq_number s) (ack_number s) (packets_send s)
    (packets_received s) (packets_lost s) (bytes_send s) (bytes_received s)
    (bytes_lost s) (address s) (address_len s).

Definition set_buf_fill_level (s : microtcp_sock_t) (v : Z) :=
  mkSock (sd s) (state s) (init_win_size s) (curr_win_size s) (recvbuf s)
    v (seq_number s) (ack_number s) (packets_send s)
    (packets_received s) (packets_lost s) (bytes_send s) (bytes_received s)
    (bytes_lost s) (address s) (address_len s).

Definition set_seq_number (s : microtcp_sock_t) (v : Z) :=
  mkSock (sd s) (state s) (init_win_size s) (curr_win_size s) (recvbuf s)
    (buf_fill_level s) v (ack_number s) (packets_send s)
    (packets_received s) (packets_lost s) (bytes_send s) (bytes_received s)
    (bytes_lost s) (address s) (address_len s).

Definition set_ack_number (s : microtcp_sock_t) (v : Z) :=
  mkSock (sd s) (state s) (init_win_size s) (curr_win_size s) (recvbuf s)
    (buf_fill_level s) (seq_number s) v (packets_send s)
    (packets_received s) (packets_lost s) (bytes_send s) (bytes_received s)
    (bytes_lost s) (address s) (address_len s).

Definition set_packets_send (s : microtcp_sock_t) (v : Z) :=
  mkSock (sd s) (state s) (init_win_size s) (curr_win_size s) (recvbuf s)
    (buf_fill_level s) (seq_number s) (ack_number s) v
    (packets_received s) (packets_lost s) (bytes_send s) (bytes_received s)
    (bytes_lost s) (address s) (address_len s).

Definition set_bytes_send (s : microtcp_sock_t) (v : Z) :=
  mkSock (sd s) (state s) (init_win_size s) (curr_win_size s) (recvbuf s)
    (buf_fill_level s) (seq_number s) (ack_number s) (packets_send s)
    (packets_received s) (packets_lost s) v (bytes_received s)
    (bytes_lost s) (address s) (address_len s).

Definition set_address (s : microtcp_sock_t) (v : sockaddr) :=
  mkSock (sd s) (state s) (init_win_size s) (curr_win_size s) (recvbuf s)
    (buf_fill_level s) (seq_number s) (ack_number s) (packets_send s)
    (packets_received s) (packets_lost s) (bytes_send s) (bytes_received s)
    (bytes_lost s) v (address_len s).

Definition set_address_len (s : microtcp_sock_t) (v : Z) :=
  mkSock (sd s) (state s) (init_win_size s) (curr_win_size s) (recvbuf s)
    (buf_fill_level s) (seq_number s) (ack_number s) (packets_send s)
    (packets_received s) (packets_lost s) (bytes_send s) (bytes_received s)
    (bytes_lost s) (address s) v.

Definition state_eqb (a b : microtcp_state_t) : bool :=
  match a, b with
  | UNKNOWN, UNKNOWN | ESTABLISHED, ESTABLISHED
  | CLOSING_BY_PEER, CLOSING_BY_PEER | CLOSING_BY_HOST, CLOSING_BY_HOST
  | CLOSED, CLOSED | INVALID, INVALID => true
  | _, _ => false
  end.

(** ** The world outside the library *)

(** One completed [recvfrom]: its return value, the datagram, and the source
    address the kernel reports. *)
Record rx_event : Type := mkRx {
  rx_ret : Z;
  rx_data : memory;
  rx_src : sockaddr;
  rx_srclen : Z
}.

(** One [sendto] call: the bytes handed over and the destination. *)
Record tx_event : Type := mkTx {
  tx_data : memory;
  tx_dst : sockaddr
}.

(** Values the C code reads without having written them: fresh [malloc]
    blocks and automatic variables. *)
Record indeterminate : Type := mkJunk {
  fresh_block : nat -> memory;
  auto_buf : memory;
  auto_addr : sockaddr;
  auto_addrlen : Z;
  auto_header : microtcp_header_t;
  auto_ssize : Z
}.

Record world : Type := mkWorld {
  inbox : list rx_event;       (* what the coming recvfrom calls deliver *)
  outbox : list tx_event;      (* the sendto calls made so far *)
  sendto_result : nat -> Z;    (* what the n-th sendto returns *)
  rand_result : nat -> Z;      (* what the n-th rand returns *)
  rands : nat;
  junk : indeterminate;
  mallocs : nat;
  frees : nat;
  checks : list bool           (* verdicts of is_checksum_valid so far *)
}.

Definition set_inbox (w : world) (v : list rx_event) :=
  mkWorld v (outbox w) (sendto_result w) (rand_result w) (rands w) (junk w)
    (mallocs w) (frees w) (checks w).

Definition set_outbox (w : world) (v : list tx_event) :=
  mkWorld (inbox w) v (sendto_result w) (rand_result w) (rands w) (junk w)
    (mallocs w) (frees w) (checks w).

Definition set_rands (w : world) (v : nat) :=
  mkWorld (inbox w) (outbox w) (sendto_result w) (rand_result w) v (junk w)
    (mallocs w) (frees w) (checks w).

Definition set_mallocs (w : world) (v : nat) :=
  mkWorld (inbox w) (outbox w) (sendto_result w) (rand_result w) (rands w)
    (junk w) v (frees w) (checks w).

Definition set_frees (w : world) (v : nat) :=
  mkWorld (inbox w) (outbox w) (sendto_result w) (rand_result w) (rands w)
    (junk w) (mallocs w) v (checks w).

Definition set_checks (w : world) (v : list bool) :=
  mkWorld (inbox w) (outbox w) (sendto_result w) (rand_result w) (rands w)
    (junk w) (mallocs w) (frees w) v.

(** ** A state monad over the world; [None] is a call that never returns *)

Definition M (A : Type) : Type := world -> option (A * world).

Definition ret {A : Type} (a : A) : M A := fun w => Some (a, w).

Definition bind {A B : Type} (m : M A) (k : A -> M B) : M B :=
  fun w => match m w with
           | Some (a, w') => k a w'
           | None => None
           end.

Notation "x <- m ;; k" := (bind m (fun x => k))
  (at level 61, m at next level, right associativity).
Notation "' pat <- m ;; k" := (bind m (fun x => match x with pat => k end))
  (at level 61, pat pattern, m at next level, right associativity).

Definition rand : M Z :=
  fun w => Some (rand_result w (rands w), set_rands w (S (rands w))).

Definition malloc (size : Z) : M memory :=
  fun w => Some (fresh_block (junk w) (mallocs w), set_mallocs w (S (mallocs w))).

Definition free (p : memory) : M unit :=
  fun w => Some (tt, set_frees w (S (frees w))).

Definition sendto (sockfd : Z) (buf : memory) (len : Z)
    (dest : sockaddr) (dest_len : Z) : M Z :=
  fun w => Some (sendto_result w (length (outbox w)),
                 set_outbox w (outbox w ++ [mkTx (read buf len) dest])).

(** The memory effect of one completed [recvfrom]: on success the datagram
    and the source address are written, on failure nothing is. *)
Definition deliver (ev : rx_event) (buf : memory) (src : sockaddr) (srclen : Z)
    : Z * memory * sockaddr * Z :=
  if 0 <=? rx_ret ev
  then (rx_ret ev, memcpy buf (rx_data ev) (rx_ret ev), rx_src ev, rx_srclen ev)
  else (rx_ret ev, buf, src, srclen).

(** A blocking [recvfrom]: with nothing left to receive it never returns. *)
Definition recvfrom (sockfd : Z) (buf : memory) (src : sockaddr) (srclen : Z)
    : M (Z * memory * sockaddr * Z) :=
  fun w => match inbox w with
           | [] => None
           | ev :: rest => Some (deliver ev buf src srclen, set_inbox w rest)
           end.

(** [do { ... recvfrom ... } while (again)]: each round consumes one
    completed [recvfrom]. *)
Fixpoint do_while_recv {S : Type} (body : rx_event -> S -> S)
    (again : S -> bool) (evs : list rx_event) (st : S)
    : option (S * list rx_event) :=
  match evs with
  | [] => None
  | ev :: evs' =>
      let st' := body ev st in
      if again st' then do_while_recv body again evs' st'
      else Some (st', evs')
  end.

(** The body [ret = recvfrom(..., buf, ..., &src, &len)] of the receive
    loops, and their condition [!is_equal_addresses(address, src)]. *)
Definition recv_into (ev : rx_event) (st : Z * memory * sockaddr * Z)
    : Z * memory * sockaddr * Z :=
  let '(_, buf, src, len) := st in deliver ev buf src len.

Definition not_from (address : sockaddr) (st : Z * memory * sockaddr * Z)
    : bool :=
  let '(_, _, src, _) := st in negb (is_equal_addresses address src).

Definition recv_loop {S : Type} (body : rx_event -> S -> S)
    (again : S -> bool) (st : S) : M S :=
  fun w => match do_while_recv body again (inbox w) st with
           | Some (st', rest) => Some (st', set_inbox w rest)
           | None => None
           end.

Definition uninitialised {A : Type} (pick : indeterminate -> A) : M A :=
  fun w => Some (pick (junk w), w).

Definition log_check (verdict : bool) : M bool :=
  fun w => Some (verdict, set_checks w (checks w ++ [verdict])).

Definition SHUT_RDWR : Z := 2.

(** ** The library, over what microtcp.h and the platform leave open *)

Section MicroTCP.

(** Byte order of the host the library runs on. *)
Variable host : byte_order.

(** [crc32] of ../utils/crc32.h, applied to the bytes it is given. *)
Variable crc32 : memory -> Z.

(** Constants of microtcp.h. *)
Variable MICROTCP_RECVBUF_LEN : Z.
Variable MICROTCP_WIN_SIZE : Z.

(** [microtcp_connect] has [socket->state = ;] where [recvfrom] failed:
    the state it assigns there is not in the source. *)
Variable elided_state : microtcp_state_t.

(** [microtcp_accept] passes the identifier [recv], which it does not
    declare, as the length of its second checksum validation; this is the
    number that identifier converts to. *)
Variable recv_symbol : Z.

(** The header as the struct found at a pointer, members in host order. *)
Definition header_at (mem : memory) : microtcp_header_t :=
  mkHeader (load32 host mem 0) (load32 host mem 4) (load16 host mem 8)
    (load16 host mem 10) (load32 host mem 12) (load32 host mem 16)
    (load32 host mem 20) (load32 host mem 24)
    (load32 host mem offsetof_checksum).

(** The bytes of a header struct in memory. *)
Definition header_bytes (h : microtcp_header_t) : memory :=
  store32 host (h_seq_number h) ++ store32 host (h_ack_number h) ++
  store16 host (h_control h) ++ store16 host (h_window h) ++
  store32 host (h_data_len h) ++ store32 host (h_future_use0 h) ++
  store32 host (h_future_use1 h) ++ store32 host (h_future_use2 h) ++
  store32 host (h_checksum h).

Definition make_header (seq_number ack_number window data_len : Z)
    (ACK RST SYN FIN : Z) : microtcp_header_t :=
  let tmp_control := 0 in
  (* the four calls of set_bit are statements: their value is dropped *)
  let _ := if truthy (u8 ACK) then set_bit tmp_control ACK_F else 0 in
  let _ := if truthy (u8 RST) then set_bit tmp_control RST_F else 0 in
  let _ := if truthy (u8 SYN) then set_bit tmp_control SYN_F else 0 in
  let _ := if truthy (u8 FIN) then set_bit tmp_control FIN_F else 0 in
  let header :=
    mkHeader (htonl host seq_number) (htonl host ack_number)
      (htons host tmp_control) (htons host window) (htonl host data_len)
      0 0 0 0 in
  set_checksum header
    (htonl host (crc32 (read (header_bytes header) sizeof_header))).

Definition get_hbo_header (nbo_header : microtcp_header_t)
    : microtcp_header_t :=
  mkHeader (ntohl host (h_seq_number nbo_header))
    (ntohl host (h_ack_number nbo_header))
    (ntohs host (h_control nbo_header))
    (ntohs host (h_window nbo_header))
    (ntohl host (h_data_len nbo_header))
    (ntohl host (h_future_use0 nbo_header))
    (ntohl host (h_future_use1 nbo_header))
    (ntohl host (h_future_use2 nbo_header))
    (ntohl host (h_checksum nbo_header)).

Definition is_header_control_valid (hbo_header : microtcp_header_t)
    (ACK RST SYN FIN : Z) : bool :=
  if truthy (u8 ACK) && (get_bit (h_control hbo_header) ACK_F =? 0) then false
  else if truthy (u8 RST) && (get_bit (h_control hbo_header) RST_F =? 0) then false
  else if truthy (u8 SYN) && (get_bit (h_control hbo_header) SYN_F =? 0) then false
  else if truthy (u8 FIN) && (get_bit (h_control hbo_header) FIN_F =? 0) then false
  else true.

Definition is_checksum_valid (recv_buf : memory) (msg_len : Z) : M bool :=
  let size := 0 in
  tmp_header <- malloc msg_len ;;
  let tmp_header := memcpy tmp_header recv_buf size in
  let received_checksum :=
    ntohl host (h_checksum (header_at tmp_header)) in
  let calculated_checksum := ntohl host (crc32 (read recv_buf msg_len)) in
  log_check (received_checksum =? calculated_checksum).

Definition microtcp_connect (socket : microtcp_sock_t) (address : sockaddr)
    (address_len : Z) : M (Z * microtcp_sock_t) :=
  src_addr <- uninitialised auto_addr ;;
  src_addr_length <- uninitialised auto_addrlen ;;
  tmp_buf <- uninitialised auto_buf ;;
  r <- rand ;;
  let socket := set_seq_number socket (u32 r) in
  let syn := make_header (seq_number socket) 0 0 0 0 0 1 0 in
  bytes_sent <- sendto (sd socket) (header_bytes syn) sizeof_header
                  address address_len ;;
  if negb (bytes_sent =? sizeof_header) then
    ret (sd socket, set_state socket INVALID)
  else
  let socket := set_seq_number socket (u32 (seq_number socket + 1)) in
  let socket := set_packets_send socket (u64 (packets_send socket + 1)) in
  let socket := set_bytes_send socket (u64 (bytes_send socket + bytes_sent)) in
  '(ret_, tmp_buf, src_addr, src_addr_length) <-
    recv_loop recv_into (not_from address)
      (0, tmp_buf, src_addr, src_addr_length) ;;
  let synack := get_hbo_header (header_at tmp_buf) in
  if ret_ <=? 0 then
    ret (sd socket, set_state socket elided_state)
  else
  valid <- is_checksum_valid (recvbuf socket) (size_t_of ret_) ;;
  if negb valid then
    ret (sd socket, set_state socket INVALID)
  else
  if negb (is_header_control_valid synack 1 0 1 0)
     || negb (h_ack_number synack =? seq_number socket) then
    ret (sd socket, set_state socket INVALID)
  else
  let socket := set_address socket address in
  let socket := set_address_len socket address_len in
  block <- malloc (MICROTCP_RECVBUF_LEN * 1) ;;
  let socket := set_recvbuf socket block in
  let socket := set_state socket ESTABLISHED in
  let socket := set_ack_number socket (u32 (h_seq_number synack + 1)) in
  let ack := make_header (seq_number socket) (ack_number socket)
               MICROTCP_WIN_SIZE 0 1 0 0 0 in
  bytes_sent <- sendto (sd socket) (header_bytes ack) sizeof_header
                  address address_len ;;
  if negb (bytes_sent =? sizeof_header) then
    ret (sd socket, set_state socket INVALID)
  else
  let socket := set_seq_number socket (u32 (seq_number socket + 1)) in
  ret (sd socket, socket).

(** The first loop of [microtcp_accept]: its body
    [ret = recvfrom(...); if (ret > 0) syn = get_hbo_header(recvbuf);] and
    its condition [!is_header_control_valid(&syn, 0, 0, 1, 0)]. *)
Definition recv_syn (ev : rx_event)
    (st : Z * memory * sockaddr * Z * microtcp_header_t)
    : Z * memory * sockaddr * Z * microtcp_header_t :=
  let '(_, buf, src, len, syn) := st in
  let '(r, buf, src, len) := deliver ev buf src len in
  let syn := if 0 <? r then get_hbo_header (header_at buf) else syn in
  (r, buf, src, len, syn).

Definition no_syn (st : Z * memory * sockaddr * Z * microtcp_header_t)
    : bool :=
  let '(_, _, _, _, syn) := st in negb (is_header_control_valid syn 0 0 1 0).

(** The [address] and [address_len] arguments are never used by the body;
    they are named apart from the members of the socket. *)
Definition microtcp_accept (socket : microtcp_sock_t) (arg_address : sockaddr)
    (arg_address_len : Z) : M (Z * microtcp_sock_t) :=
  block <- malloc (MICROTCP_RECVBUF_LEN * 1) ;;
  let socket := set_recvbuf socket block in
  let socket := set_buf_fill_level socket 0 in
  let socket := set_init_win_size socket MICROTCP_WIN_SIZE in
  let socket := set_curr_win_size socket MICROTCP_WIN_SIZE in
  syn <- uninitialised auto_header ;;
  src_addr <- uninitialised auto_addr ;;
  src_addr_length <- uninitialised auto_addrlen ;;
  '(ret_, buf, src_addr, src_addr_length, syn) <-
    recv_loop recv_syn no_syn
      (0, recvbuf socket, src_addr, src_addr_length, syn) ;;
  let socket := set_recvbuf socket buf in
  valid <- is_checksum_valid (recvbuf socket) (size_t_of ret_) ;;
  if negb valid then
    ret (sd socket, set_state socket INVALID)
  else
  r <- rand ;;
  let socket := set_seq_number socket (u32 r) in
  let socket := set_ack_number socket (u32 (h_ack_number syn + 1)) in
  let socket := set_init_win_size socket (h_window syn) in
  let socket := set_curr_win_size socket (h_window syn) in
  let socket := set_address socket src_addr in
  let socket := set_address_len socket src_addr_length in
  let synack := make_header (seq_number socket) (ack_number socket)
                  MICROTCP_WIN_SIZE 0 1 0 1 0 in
  bytes_sent <- sendto (sd socket) (header_bytes synack) sizeof_header
                  (address socket) (address_len socket) ;;
  if negb (bytes_sent =? sizeof_header) then
    ret (sd socket, set_state socket INVALID)
  else
  let socket := set_seq_number socket (u32 (seq_number socket + 1)) in
  let socket := set_bytes_send socket (u64 (bytes_send socket + bytes_sent)) in
  let socket := set_packets_send socket (u64 (packets_send socket + 1)) in
  '(ret_, buf, src_addr, src_addr_length) <-
    recv_loop recv_into (not_from (address socket))
      (ret_, recvbuf socket, src_addr, src_addr_length) ;;
  let socket := set_recvbuf socket buf in
  if ret_ <=? 0 then
    ret (sd socket, set_state socket INVALID)
  else
  let ack := get_hbo_header (header_at (recvbuf socket)) in
  valid <- is_checksum_valid (recvbuf socket) recv_symbol ;;
  if negb valid then
    ret (sd socket, set_state socket INVALID)
  else
  if negb (is_header_control_valid ack 1 0 0 0) then
    ret (sd socket, set_state socket INVALID)
  else
  let socket := set_state socket ESTABLISHED in
  let socket := set_ack_number socket (u32 (h_seq_number ack + 1)) in
  ret (sd socket, socket).

Definition microtcp_shutdown (socket : microtcp_sock_t) (how : Z)
    : M (Z * microtcp_sock_t) :=
  if how =? SHUT_RDWR then
    let finack := make_header (seq_number socket) (ack_number socket)
                    MICROTCP_WIN_SIZE 0 1 0 0 1 in
    ret_ <- sendto (sd socket) (header_bytes finack) sizeof_header
              (address socket) (address_len socket) ;;
    if negb (ret_ =? sizeof_header) then
      ret (sd socket, set_state socket INVALID)
    else
    '(ret_, buf, src, len) <-
      recvfrom (sd socket) (recvbuf socket)
        (address socket) (address_len socket) ;;
    let socket := set_recvbuf socket buf in
    let socket := set_address socket src in
    let socket := set_address_len socket len in
    if ret_ <=? 0 then
      ret (sd socket, set_state socket INVALID)
    else
    valid <- is_checksum_valid (recvbuf socket) (size_t_of ret_) ;;
    if negb valid then
      ret (sd socket, set_state socket INVALID)
    else
    let ack := get_hbo_header (header_at (recvbuf socket)) in
    if negb (h_seq_number ack =? ack_number socket)
       || negb (h_ack_number ack =? seq_number socket)
       || negb (is_header_control_valid ack 1 0 0 0) then
      ret (sd socket, set_state socket INVALID)
    else
    let socket := set_seq_number socket (u32 (seq_number socket + 1)) in
    let closed (socket : microtcp_sock_t) : M (Z * microtcp_sock_t) :=
      let socket := set_state socket CLOSED in
      _ <- free (recvbuf socket) ;;
      ret (sd socket, socket) in
    if negb (state_eqb (state socket) CLOSING_BY_PEER) then
      let socket := set_state socket CLOSING_BY_HOST in
      '(ret_, buf, src, len) <-
        recvfrom (sd socket) (recvbuf socket)
          (address socket) (address_len socket) ;;
      let socket := set_recvbuf socket buf in
      let socket := set_address socket src in
      let socket := set_address_len socket len in
      if ret_ <=? 0 then
        ret (sd socket, set_state socket INVALID)
      else
      valid <- is_checksum_valid (recvbuf socket) (size_t_of ret_) ;;
      if negb valid then
        ret (sd socket, set_state socket INVALID)
      else
      let finack := get_hbo_header (header_at (recvbuf socket)) in
      if negb (h_ack_number finack =? seq_number socket)
         || negb (is_header_control_valid finack 1 0 0 1) then
        ret (sd socket, set_state socket INVALID)
      else
      let socket := set_ack_number socket (u32 (h_seq_number finack + 1)) in
      let ack := make_header (seq_number socket) (ack_number socket)
                   MICROTCP_WIN_SIZE 0 1 0 0 0 in
      ret_ <- sendto (sd socket) (header_bytes ack) sizeof_header
                (address socket) (address_len socket) ;;
      if ret_ <? 0 then
        ret (sd socket, set_state socket INVALID)
      else
      closed socket
    else
      closed socket
  else
    ret (sd socket, socket).

(** [microtcp_send] and [microtcp_recv] have an empty body: nothing is
    done, and the value the caller reads as the result was never set. *)
Definition microtcp_send (socket : microtcp_sock_t) (buffer : memory)
    (length flags : Z) : M (Z * microtcp_sock_t) :=
  result <- uninitialised auto_ssize ;;
  ret (result, socket).

Definition microtcp_recv (socket : microtcp_sock_t) (buffer : memory)
    (length flags : Z) : M (Z * microtcp_sock_t) :=
  result <- uninitialised auto_ssize ;;
  ret (result, socket).

(** The three connection operations, as one entry point. *)
Inductive operation : Type :=
  | Connect (address : sockaddr) (address_len : Z)
  | Accept (address : sockaddr) (address_len : Z)
  | Shutdown (how : Z).

Definition perform (op : operation) (socket : microtcp_sock_t)
    : M (Z * microtcp_sock_t) :=
  match op with
  | Connect a l => microtcp_connect socket a l
  | Accept a l => microtcp_accept socket a l
  | Shutdown how => microtcp_shutdown socket how
  end.

End MicroTCP.

(** ** Scenarios: concrete peers, segments and worlds *)

Definition be16 (x : Z) : memory :=
  [Z.land (Z.shiftr x 8) 255; Z.land x 255].

Definition be32 (x : Z) : memory :=
  [Z.land (Z.shiftr x 24) 255; Z.land (Z.shiftr x 16) 255;
   Z.land (Z.shiftr x 8) 255; Z.land x 255].

(** A segment as a peer that follows the wire format puts it on the wire:
    network byte order, the control bits set, the CRC-32 of the header with
    a zero checksum field stored last.  The scenarios receive such segments. *)
Definition wire_segment (seq ack control window data_len : Z) : memory :=
  let fields := be32 seq ++ be32 ack ++ be16 control ++ be16 window ++
                be32 data_len ++ be32 0 ++ be32 0 ++ be32 0 in
  fields ++ be32 (crc32_ieee (fields ++ be32 0)).

Definition CTL_ACK : Z := Z.shiftl 1 ACK_F.
Definition CTL_SYN : Z := Z.shiftl 1 SYN_F.
Definition CTL_FIN : Z := Z.shiftl 1 FIN_F.

Definition zeros (n : Z) : memory := repeat 0 (Z.to_nat n).

(** A block whose [checksum] member holds [c]. *)
Definition block_with_checksum (host : byte_order) (c : Z) : memory :=
  zeros (Z.of_nat offsetof_checksum) ++ store32 host c.

Definition peer_a : sockaddr := mkSockaddr 2 [31; 144; 10; 1; 1; 7].
Definition peer_b : sockaddr := mkSockaddr 2 [31; 145; 10; 1; 1; 9].

(** A datagram of [bytes] arriving whole from [src]. *)
Definition arrival (bytes : memory) (src : sockaddr) : rx_event :=
  mkRx (Z.of_nat (length bytes)) bytes src 16.

Definition fresh_socket (fd : Z) : microtcp_sock_t :=
  mkSock fd UNKNOWN 0 0 (zeros 64) 0 0 0 0 0 0 0 0 0 (mkSockaddr 0 []) 0.

(** A world in which every [sendto] sends the whole header, [rand] returns
    [isn], the datagrams [evs] are waiting, and the [n]-th block handed out
    by [malloc] is [blocks n]. *)
Definition scenario (isn : Z) (evs : list rx_event) (blocks : nat -> memory)
    : world :=
  mkWorld evs [] (fun _ => sizeof_header) (fun _ => isn) 0
    (mkJunk blocks (zeros 64) (mkSockaddr 0 []) 0
       (mkHeader 0 0 0 0 0 0 0 0 0) 0)
    0 0 [].

(** The same world with a [sendto] that fails from the [n]-th call on. *)
Definition failing_sendto_from (n : nat) (w : world) : world :=
  mkWorld (inbox w) (outbox w)
    (fun k => if Nat.leb n k then -1 else sizeof_header)
    (rand_result w) (rands w) (junk w) (mallocs w) (frees w) (checks w).

Definition RECVBUF_LEN : Z := 8192.
Definition WIN_SIZE : Z := 8192.

(** Some address of libc's [recv] on an LP64 host. *)
Definition RECV_SYMBOL : Z := 0x7ffff7d1a5f0.

(** The library as built for a little-endian host with the CRC-32 above.
    The state that [microtcp_connect] leaves out is taken to be INVALID; no
    scenario reaches that line. *)
Definition connect_le :=
  microtcp_connect LittleEndian crc32_ieee RECVBUF_LEN WIN_SIZE INVALID.
Definition accept_le :=
  microtcp_accept LittleEndian crc32_ieee RECVBUF_LEN WIN_SIZE RECV_SYMBOL.
Definition shutdown_le :=
  microtcp_shutdown LittleEndian crc32_ieee WIN_SIZE.

(** ** Vocabulary of the statements *)

(** Partial correctness of a monadic computation: from a world that meets
    [P], every result it returns meets [Q]. *)
Definition triple {A : Type} (P : world -> Prop) (m : M A)
    (Q : A -> world -> Prop) : Prop :=
  forall w a w', P w -> m w = Some (a, w') -> Q a w'.

(** A call that leaves the record of verdicts alone. *)
Definition silent {A : Type} (m : M A) : Prop :=
  forall w a w', m w = Some (a, w') -> checks w' = checks w.



(** The verdict a validation gives when it is run in world [w]. *)
Definition verdict_in (w : world) (m : M bool) : option bool :=
  option_map fst (m w).

(** In world [w] the initiator's two headers are sent whole, and the first
    datagram from [addr] is non-empty, decodes to [synack] with SYN and ACK
    set, and the validation made for it passes. *)
Definition accepts_synack (host : byte_order) (crc32 : memory -> Z)
    (socket : microtcp_sock_t) (addr : sockaddr) (w : world)
    (synack : microtcp_header_t) : Prop :=
  exists n reply src srclen rest,
    sendto_result w (length (outbox w)) = sizeof_header /\
    sendto_result w (S (length (outbox w))) = sizeof_header /\
    do_while_recv recv_into (not_from addr) (inbox w)
      (0, auto_buf (junk w), auto_addr (junk w), auto_addrlen (junk w)) =
      Some ((n, reply, src, srclen), rest) /\
    0 < n /\
    synack = get_hbo_header host (header_at host reply) /\
    verdict_in w (is_checksum_valid host crc32 (recvbuf socket) (size_t_of n))
      = Some true /\
    is_header_control_valid synack 1 0 1 0 = true.


(** What a run leaves behind: the value returned, and the state and the two
    sequence counters of the connection. *)
Definition summary (run : option (Z * microtcp_sock_t * world))
    : option (Z * microtcp_state_t * Z * Z) :=
  match run with
  | Some (r, socket, _) =>
      Some (r, state socket, seq_number socket, ack_number socket)
  | None => None
  end.

(** What a run leaves behind, for the fate of a rejected segment: the
    state, the verdicts given, and how many datagrams are still unread. *)
Definition aftermath (run : option (Z * microtcp_sock_t * world))
    : option (microtcp_state_t * list bool * nat) :=
  match run with
  | Some (_, socket, w) => Some (state socket, checks w, length (inbox w))
  | None => None
  end.

(** The sequence and acknowledgment fields of the segments sent in a run. *)
Definition sent_seq_ack (run : option (Z * microtcp_sock_t * world))
    : option (list (memory * memory)) :=
  match run with
  | Some (_, _, w) =>
      Some (map (fun t => (read (tx_data t) 4, read (skip (tx_data t) 4) 4))
              (outbox w))
  | None => None
  end.

(** ** The actors of the scenarios *)

(** The initiator of the scenarios: initial sequence number 100, talking to
    [peer_b]; the block its validation reads happens to hold the CRC the
    validation computes. *)
Definition initiator : microtcp_sock_t := fresh_socket 3.

Definition initiator_blocks (n : nat) : memory :=
  match n with
  | O => block_with_checksum LittleEndian
           (crc32_ieee (read (recvbuf initiator) sizeof_header))
  | _ => zeros RECVBUF_LEN
  end.

Definition initiator_world (reply : memory) : world :=
  scenario 100 [arrival reply peer_b] initiator_blocks.

(** The responder of the scenarios: initial sequence number 500, reached by
    [peer_a]; the blocks its two validations read happen to hold the CRCs
    the validations compute. *)
Definition responder : microtcp_sock_t := fresh_socket 4.

Definition syn_100 : memory := wire_segment 100 0 CTL_SYN WIN_SIZE 0.
Definition synack_500_101 : memory :=
  wire_segment 500 101 (Z.lor CTL_SYN CTL_ACK) WIN_SIZE 0.
Definition ack_101_501 : memory := wire_segment 101 501 CTL_ACK WIN_SIZE 0.

Definition responder_blocks (n : nat) : memory :=
  match n with
  | O => zeros RECVBUF_LEN
  | S O => block_with_checksum LittleEndian (crc32_ieee syn_100)
  | _ => block_with_checksum LittleEndian
           (crc32_ieee (memcpy (zeros RECVBUF_LEN) ack_101_501 sizeof_header))
  end.

Definition responder_world : world :=
  scenario 500 [arrival syn_100 peer_a; arrival ack_101_501 peer_a]
    responder_blocks.

(** A connection in the middle of a conversation with [peer]. *)
Definition established (fd seq ack : Z) (peer : sockaddr) : microtcp_sock_t :=
  mkSock fd ESTABLISHED WIN_SIZE WIN_SIZE (zeros RECVBUF_LEN) 0 seq ack
    2 0 0 64 0 0 peer 16.

(** Two copies of a datagram are waiting, and every block [malloc] hands
    out is zero-filled, so that the validation of the first copy fails. *)
Definition twice_with_zero_blocks (isn : Z) (bytes : memory) (src : sockaddr)
    : world :=
  scenario isn [arrival bytes src; arrival bytes src]
    (fun _ => zeros RECVBUF_LEN).

Definition CTL_FINACK : Z := Z.lor CTL_FIN CTL_ACK.

(** The side that closes first, after the handshake of the scenario:
    seq_number 101, expecting 501 from [peer_b].  Two datagrams from the
    peer are waiting, and the blocks the two validations read happen to
    hold the CRCs the validations compute. *)
Definition closer : microtcp_sock_t := established 3 101 501 peer_b.

Definition closer_world (first second : memory) : world :=
  scenario 0 [arrival first peer_b; arrival second peer_b]
    (fun n => match n with
              | O => block_with_checksum LittleEndian (crc32_ieee first)
              | _ => block_with_checksum LittleEndian (crc32_ieee second)
              end).

(** ** Vocabulary of the further properties *)

(** A computation that leaves the component [f] of the world alone. *)
Definition keeps {A B : Type} (f : world -> B) (m : M A) : Prop :=
  forall w a w', m w = Some (a, w') -> f w' = f w.

(** Bytes whose control field, the two bytes at offset 8, is zero. *)
Definition no_control_bits (bytes : memory) : Prop :=
  exists pre post, bytes = pre ++ 0 :: 0 :: post /\ length pre = 8%nat.

(** A segment that is a header and nothing more, with no flag set. *)
Definition bare_header (t : tx_event) : Prop :=
  length (tx_data t) = 32%nat /\ no_control_bits (tx_data t).

(** A datagram of at least ten bytes with no flag set. *)
Definition flagless_arrival (ev : rx_event) : Prop :=
  10 <= rx_ret ev /\ no_control_bits (rx_data ev).

(** Since the outbox stood at [o0], only bare headers have been sent. *)
Definition sent_bare (o0 : list tx_event) (w : world) : Prop :=
  exists new, outbox w = o0 ++ new /\ Forall bare_header new.

(** The first half of [microtcp_shutdown]: the FIN+ACK is out, and a
    datagram, from whatever address, has been received: [ack] is what it
    decodes to, and the checksum validation made for it passes. *)
Definition shutdown_receives_ack (host : byte_order) (crc32 : memory -> Z)
    (socket : microtcp_sock_t) (w : world) (ev : rx_event)
    (rest : list rx_event) (ack : microtcp_header_t) : Prop :=
  sendto_result w (length (outbox w)) = sizeof_header /\
  inbox w = ev :: rest /\
  0 < rx_ret ev /\
  verdict_in w
    (is_checksum_valid host crc32
       (memcpy (recvbuf socket) (rx_data ev) (rx_ret ev))
       (size_t_of (rx_ret ev))) = Some true /\
  ack = get_hbo_header host
          (header_at host (memcpy (recvbuf socket) (rx_data ev) (rx_ret ev))).

(** The world [w] with the blocks that [malloc] hands out replaced. *)
Definition with_blocks (blocks : nat -> memory) (w : world) : world :=
  mkWorld (inbox w) (outbox w) (sendto_result w) (rand_result w) (rands w)
    (mkJunk blocks (auto_buf (junk w)) (auto_addr (junk w))
       (auto_addrlen (junk w)) (auto_header (junk w)) (auto_ssize (junk w)))
    (mallocs w) (frees w) (checks w).

(** ** Creating the socket *)








(** [microtcp_bind]: the value of the system call [bind] is handed on. *)
Definition microtcp_bind (os_bind : Z -> sockaddr -> Z -> Z)
    (socket : microtcp_sock_t) (address : sockaddr) (address_len : Z) : Z :=
  let rv := os_bind (sd socket) address address_len in
  rv.

(** ** More actors *)

(** The initiator's world with a [sendto] that fails at once, and what the
    call that gives up on its SYN leaves. *)
Definition syn_send_fails : world :=
  failing_sendto_from 0 (initiator_world synack_500_101).

Definition initiator_syn : memory :=
  header_bytes LittleEndian
    (make_header LittleEndian crc32_ieee 100 0 0 0 0 0 1 0).

Definition after_failed_syn : world :=
  set_outbox (set_rands syn_send_fails 1) [mkTx initiator_syn peer_b].

Definition initiator_gave_up : microtcp_sock_t :=
  set_state (set_seq_number initiator 100) INVALID.

(** The responder after a SYN whose validation failed. *)
Definition responder_gave_up : microtcp_sock_t :=
  set_state
    (set_recvbuf (set_buf_fill_level
                    (set_curr_win_size
                       (set_init_win_size responder WIN_SIZE) WIN_SIZE) 0)
       (memcpy (zeros RECVBUF_LEN) syn_100 32))
    INVALID.

Definition after_rejected_syn : world :=
  set_checks
    (set_mallocs
       (set_inbox (twice_with_zero_blocks 500 syn_100 peer_a)
          [arrival syn_100 peer_a]) 2)
    [false].

(** The initiator after a reply whose validation failed. *)
Definition initiator_rejected : microtcp_sock_t :=
  set_state
    (set_bytes_send
       (set_packets_send (set_seq_number initiator 101) 1) 32)
    INVALID.

Definition after_rejected_reply : world :=
  set_checks
    (set_mallocs
       (set_inbox
          (set_outbox
             (set_rands (twice_with_zero_blocks 100 synack_500_101 peer_b) 1)
             [mkTx initiator_syn peer_b])
          [arrival synack_500_101 peer_b]) 1)
    [false].

(** A connection whose peer, [peer_a], has closed first. *)
Definition peer_closed : microtcp_sock_t :=
  mkSock 4 CLOSING_BY_PEER WIN_SIZE WIN_SIZE (zeros RECVBUF_LEN) 0
    501 102 2 0 0 64 0 0 peer_a 16.

Definition ack_102_501 : memory := wire_segment 102 501 CTL_ACK WIN_SIZE 0.
Definition ack_501_101 : memory := wire_segment 501 101 CTL_ACK WIN_SIZE 0.
Definition ack_501_102 : memory := wire_segment 501 102 CTL_ACK WIN_SIZE 0.
Definition finack_501_102 : memory :=
  wire_segment 501 102 CTL_FINACK WIN_SIZE 0.

Definition peer_closed_world : world :=
  scenario 0 [arrival ack_102_501 peer_a]
    (fun _ => block_with_checksum LittleEndian (crc32_ieee ack_102_501)).


(** * Properties *)

(** ** The header codec *)

Example crc32_ieee_check_value :
  crc32_ieee [49; 50; 51; 52; 53; 54; 55; 56; 57] = 0xCBF43926.
Proof. vm_compute. reflexivity. Qed.

Lemma htons_zero (host : byte_order) : htons host 0 = 0.
Proof. destruct host; reflexivity. Qed.

(** Each [set_bit] result is dropped and [tmp_control] stays 0: the control
    member of every header [make_header] builds is zero. *)
Lemma make_header_control :
  forall host crc32 seq ack window data_len ACK RST SYN FIN,
    h_control
      (make_header host crc32 seq ack window data_len ACK RST SYN FIN) = 0.
Proof.
  intros. unfold make_header, set_checksum. cbn [h_control].
  apply htons_zero.
Qed.

(** C4: the encoder is asked for flags and packs none.  Whatever flag
    arguments [make_header] is given, also with all four set, the control
    word of the header it builds has the ACK, RST, SYN and FIN bits clear. *)
Theorem make_header_packs_no_flag :
  forall host crc32 seq ack window data_len ACK RST SYN FIN,
    let control :=
      ntohs host
        (h_control
           (make_header host crc32 seq ack window data_len ACK RST SYN FIN)) in
    get_bit control ACK_F = 0 /\ get_bit control RST_F = 0 /\
    get_bit control SYN_F = 0 /\ get_bit control FIN_F = 0.
Proof.
  intros. unfold control. rewrite make_header_control.
  unfold ntohs. rewrite htons_zero. repeat split; reflexivity.
Qed.

(** The failing input of C4: a header encoded with SYN=1 has bit 2 of its
    control word clear, and so has the control field on the wire. *)
Example make_header_syn_bit_clear :
  forall host crc32,
    let h := make_header host crc32 100 0 0 0 0 0 1 0 in
    get_bit (ntohs host (h_control h)) SYN_F = 0 /\
    read (skip (header_bytes host h) 8) 2 = [0; 0].
Proof.
  intros host crc32 h. unfold h. rewrite make_header_control.
  destruct host; split; reflexivity.
Qed.

(** What [set_bit] itself computes, when its result is used. *)
Example set_bit_syn : set_bit 0 SYN_F = 4.
Proof. reflexivity. Qed.

Lemma memcpy_zero (dst src : memory) : memcpy dst src 0 = dst.
Proof.
  unfold memcpy. destruct src, dst; reflexivity.
Qed.

(** The verdict of [is_checksum_valid] compares the checksum member of the
    block [malloc] has just handed out, into which nothing was copied, with
    the CRC of all received bytes, checksum field included. *)
Lemma is_checksum_valid_unfold :
  forall host crc32 recv_buf msg_len w,
    is_checksum_valid host crc32 recv_buf msg_len w =
    let verdict :=
      ntohl host (load32 host (fresh_block (junk w) (mallocs w))
                    offsetof_checksum)
      =? ntohl host (crc32 (read recv_buf msg_len)) in
    Some (verdict,
          set_checks (set_mallocs w (S (mallocs w))) (checks w ++ [verdict])).
Proof.
  intros. unfold is_checksum_valid, bind, malloc, log_check.
  rewrite memcpy_zero. reflexivity.
Qed.

(** C1: the header [make_header] builds for a SYN with sequence number 100
    does not pass [is_checksum_valid].  With a zero-filled block from
    [malloc] the verdict is false; it is false as well when that block
    happens to hold the received bytes themselves, because the CRC is
    recomputed over the header with its checksum field still in place. *)
Theorem is_checksum_valid_rejects_make_header :
  forall host,
    let bytes :=
      header_bytes host (make_header host crc32_ieee 100 0 0 0 0 0 1 0) in
    option_map fst
      (is_checksum_valid host crc32_ieee bytes sizeof_header
         (scenario 0 [] (fun _ => zeros 32))) = Some false /\
    option_map fst
      (is_checksum_valid host crc32_ieee bytes sizeof_header
         (scenario 0 [] (fun _ => bytes))) = Some false.
Proof.
  intros host bytes. unfold bytes.
  destruct host; split; vm_compute; reflexivity.
Qed.

(** Whatever the header and whatever [crc32] is, the verdict is decided by
    the block [malloc] returns: some block makes the validation of the
    encoded header fail. *)
Lemma is_checksum_valid_fails_for_some_block :
  forall host crc32 seq ack window data_len ACK RST SYN FIN,
  exists block,
    option_map fst
      (is_checksum_valid host crc32
         (header_bytes host
            (make_header host crc32 seq ack window data_len ACK RST SYN FIN))
         sizeof_header (scenario 0 [] (fun _ => block))) = Some false.
Proof.
  intros.
  set (bytes := header_bytes host _).
  destruct (ntohl host (crc32 (read bytes sizeof_header)) =? 0) eqn:E.
  - exists (block_with_checksum host 1).
    rewrite is_checksum_valid_unfold. cbn [option_map fst].
    apply Z.eqb_eq in E. rewrite E.
    destruct host; reflexivity.
  - exists (zeros 32).
    rewrite is_checksum_valid_unfold. cbn [option_map fst].
    replace (ntohl host (load32 host _ offsetof_checksum)) with 0
      by (destruct host; reflexivity).
    rewrite Z.eqb_sym, E. reflexivity.
Qed.

(** ** Shutdown *)

(** C10: with any [how] other than SHUT_RDWR, [microtcp_shutdown] returns
    the socket descriptor and changes neither the connection nor the world:
    nothing is sent, received, allocated or released. *)
Theorem microtcp_shutdown_other_how :
  forall host crc32 WIN socket how w,
    how <> SHUT_RDWR ->
    microtcp_shutdown host crc32 WIN socket how w =
    Some (sd socket, socket, w).
Proof.
  intros host crc32 WIN socket how w Hhow.
  unfold microtcp_shutdown.
  destruct (how =? SHUT_RDWR) eqn:E.
  - apply Z.eqb_eq in E. contradiction.
  - reflexivity.
Qed.

Lemma microtcp_shutdown_other_how_witness :
  shutdown_le (fresh_socket 3) 1 (scenario 0 [] (fun _ => zeros 32)) =
  Some (3, fresh_socket 3, scenario 0 [] (fun _ => zeros 32)).
Proof.
  apply (microtcp_shutdown_other_how LittleEndian crc32_ieee WIN_SIZE
           (fresh_socket 3) 1).
  unfold SHUT_RDWR. lia.
Defined.

(** ** Reasoning about the monad *)

Lemma triple_ret {A : Type} (P : world -> Prop) (a : A)
    (Q : A -> world -> Prop) :
  (forall w, P w -> Q a w) -> triple P (ret a) Q.
Proof.
  intros HQ w a' w' HP H. unfold ret in H. inversion H; subst. auto.
Qed.

Lemma triple_bind {A B : Type} (P : world -> Prop) (m : M A) (k : A -> M B)
    (R : A -> world -> Prop) (Q : B -> world -> Prop) :
  triple P m R -> (forall a, triple (R a) (k a) Q) -> triple P (bind m k) Q.
Proof.
  intros Hm Hk w b w' HP H. unfold bind in H.
  destruct (m w) as [[a w1] |] eqn:E; [| discriminate].
  exact (Hk a w1 b w' (Hm w a w1 HP E) H).
Qed.

Lemma triple_any {A : Type} (m : M A) :
  triple (fun _ => True) m (fun _ _ => True).
Proof. intros w a w' _ _. exact I. Qed.

(** Walk down every path of a computation, with [step] giving the triple
    of each call that is bound. *)
Ltac walk step :=
  repeat first
    [ apply triple_ret; intros
    | eapply triple_bind; [ step | intros; cbv beta ]
    | match goal with
      | |- triple _ (if negb ?c then _ else _) _ =>
          is_var c; destruct c; cbn [negb]; cbv beta iota
      | |- triple _ (if ?c then _ else _) _ => destruct c
      | |- triple _ (let (_, _) := ?x in _) _ => destruct x
      end ].

(** ** The value returned to the caller *)




(** The value returned does not tell the handshake that completed from the
    one that gave up: both calls return 3. *)
Example connect_returns_the_same_on_success_and_failure :
  summary (connect_le initiator peer_b 16 (initiator_world synack_500_101))
    = Some (3, ESTABLISHED, 102, 501) /\
  summary (connect_le initiator peer_b 16
             (failing_sendto_from 0 (initiator_world synack_500_101)))
    = Some (3, INVALID, 100, 0).
Proof.
  split; vm_compute; reflexivity.
Qed.

(** ** What a failed checksum validation leads to *)

Lemma silent_rand : silent rand.
Proof. intros w a w' H. inversion H; reflexivity. Qed.

Lemma silent_malloc (n : Z) : silent (malloc n).
Proof. intros w a w' H. inversion H; reflexivity. Qed.

Lemma silent_free (p : memory) : silent (free p).
Proof. intros w a w' H. inversion H; reflexivity. Qed.

Lemma silent_uninitialised {A : Type} (pick : indeterminate -> A) :
  silent (uninitialised pick).
Proof. intros w a w' H. inversion H; reflexivity. Qed.

Lemma silent_sendto (fd : Z) (buf : memory) (len : Z) (dst : sockaddr) (dl : Z) :
  silent (sendto fd buf len dst dl).
Proof. intros w a w' H. inversion H; reflexivity. Qed.

Lemma silent_recvfrom (fd : Z) (buf : memory) (src : sockaddr) (sl : Z) :
  silent (recvfrom fd buf src sl).
Proof.
  intros w a w' H. unfold recvfrom in H.
  destruct (inbox w); [discriminate |]. inversion H; reflexivity.
Qed.

Lemma silent_recv_loop {S : Type} (body : rx_event -> S -> S)
    (again : S -> bool) (st : S) :
  silent (recv_loop body again st).
Proof.
  intros w a w' H. unfold recv_loop in H.
  destruct (do_while_recv body again (inbox w) st) as [[st' rest] |];
    [| discriminate].
  inversion H; reflexivity.
Qed.

Create HintDb silent.
#[local] Hint Resolve silent_rand silent_malloc silent_free
  silent_uninitialised silent_sendto silent_recvfrom silent_recv_loop : silent.








(** ** Active open *)

(** Run the code one step further, leaving the codec and the loops folded. *)
Ltac sim :=
  cbn -[make_header header_bytes get_hbo_header header_at
        is_header_control_valid is_equal_addresses do_while_recv deliver
        read u32 u64 size_t_of is_checksum_valid recv_into not_from
        recv_syn no_syn Z.eqb Z.leb Z.ltb Z.add Z.mul sizeof_header].

Ltac sim_in H :=
  cbn -[make_header header_bytes get_hbo_header header_at
        is_header_control_valid is_equal_addresses do_while_recv deliver
        read u32 u64 size_t_of is_checksum_valid recv_into not_from
        recv_syn no_syn Z.eqb Z.leb Z.ltb Z.add Z.mul sizeof_header] in H.



(** ** The handshake *)






(** ** Passive open: the acknowledgment number taken from the SYN *)

(** Whatever SYN ends the first loop of [microtcp_accept] and passes the
    validation, the connection's ack_number becomes the acknowledgment
    field of that SYN plus one; the value is there to see when the SYN+ACK
    cannot be sent whole and the call gives up. *)
Lemma accept_ack_number_after_syn :
  forall host crc32 LEN WIN sym socket a l w n1 buf1 src1 len1 syn rest1,
    do_while_recv (recv_syn host) no_syn (inbox w)
      (0, fresh_block (junk w) (mallocs w), auto_addr (junk w),
       auto_addrlen (junk w), auto_header (junk w)) =
      Some ((n1, buf1, src1, len1, syn), rest1) ->
    verdict_in (set_mallocs w (S (mallocs w)))
      (is_checksum_valid host crc32 buf1 (size_t_of n1)) = Some true ->
    sendto_result w (length (outbox w)) <> sizeof_header ->
    exists socket' w',
      microtcp_accept host crc32 LEN WIN sym socket a l w =
        Some (sd socket, socket', w') /\
      state socket' = INVALID /\
      ack_number socket' = u32 (h_ack_number syn + 1).
Proof.
  intros until rest1. intros Hloop1 Hv1 Hsent.
  unfold microtcp_accept, bind, uninitialised, rand, sendto, recv_loop,
    ret, malloc.
  sim. rewrite Hloop1. sim.
  rewrite is_checksum_valid_unfold. sim.
  unfold verdict_in in Hv1. rewrite is_checksum_valid_unfold in Hv1.
  cbn [option_map fst] in Hv1. inversion Hv1 as [Hv1']. sim_in Hv1'.
  rewrite Hv1'. sim.
  apply Z.eqb_neq in Hsent. rewrite Hsent. sim.
  eexists _, _. repeat split.
Qed.

(** C3: a SYN with sequence number 100 and acknowledgment number 0 arrives
    and passes the validation.  [microtcp_accept] sets ack_number to 1, the
    acknowledgment field of the SYN plus one, not to 101: it is what the
    connection holds when the call gives up because the SYN+ACK could not
    be sent, and it is the acknowledgment number of the SYN+ACK that goes
    out when it can. *)
Theorem accept_ack_number_from_syn_ack_field :
  summary (accept_le responder peer_a 16
             (failing_sendto_from 0 responder_world))
    = Some (4, INVALID, 500, 1) /\
  option_map (fun run => map (fun t => read (skip (tx_data t) 4) 4)
                           (outbox (snd run)))
    (accept_le responder peer_a 16 responder_world)
    = Some [be32 1].
Proof.
  split; vm_compute; reflexivity.
Qed.

(** The same with another acknowledgment field in the SYN: the sequence
    number 100 of the SYN plays no part. *)
Example accept_ack_number_follows_ack_field :
  summary (accept_le responder peer_a 16
             (failing_sendto_from 0
                (scenario 500 [arrival (wire_segment 100 41 CTL_SYN 0 0) peer_a]
                   (fun n => match n with
                             | O => zeros RECVBUF_LEN
                             | _ => block_with_checksum LittleEndian
                                      (crc32_ieee
                                         (wire_segment 100 41 CTL_SYN 0 0))
                             end))))
    = Some (4, INVALID, 500, 42).
Proof. vm_compute. reflexivity. Qed.

(** ** A failed validation, in each operation *)



(** ** Teardown *)

(** C6: the teardown of the scenario does not go through.  The closing
    side sends its FIN+ACK with sequence 101 and gets the ACK carrying
    acknowledgment 102, which passes the validation; [microtcp_shutdown]
    compares that acknowledgment with seq_number before incrementing it,
    101, and returns with the connection INVALID, the peer's FIN+ACK left
    unread and no ACK sent.  On the other side, a connection in
    CLOSING_BY_PEER at sequence 501 that has sent its FIN+ACK and receives
    the ACK carrying acknowledgment 502 ends INVALID in the same way. *)
Theorem teardown_rejects_ack_of_next_sequence :
  let run :=
    shutdown_le closer SHUT_RDWR
      (closer_world (wire_segment 501 102 CTL_ACK WIN_SIZE 0)
                    (wire_segment 501 102 CTL_FINACK WIN_SIZE 0)) in
  summary run = Some (3, INVALID, 101, 501) /\
  aftermath run = Some (INVALID, [true], 1%nat) /\
  sent_seq_ack run = Some [(be32 101, be32 501)] /\
  summary
    (shutdown_le
       (mkSock 4 CLOSING_BY_PEER WIN_SIZE WIN_SIZE (zeros RECVBUF_LEN) 0
          501 102 2 0 0 64 0 0 peer_a 16)
       SHUT_RDWR
       (scenario 0 [arrival (wire_segment 102 502 CTL_ACK WIN_SIZE 0) peer_a]
          (fun _ => block_with_checksum LittleEndian
                      (crc32_ieee (wire_segment 102 502 CTL_ACK WIN_SIZE 0)))))
    = Some (4, INVALID, 501, 102).
Proof.
  cbv zeta. repeat split; vm_compute; reflexivity.
Qed.

(** What the code does accept: an ACK that acknowledges the sequence number
    of the FIN+ACK itself, 101.  The call then goes on to read the peer's
    FIN+ACK, answers it with an ACK whose acknowledgment is that segment's
    sequence number plus one, 502, and ends CLOSED: the acknowledgment it
    sends is not of the kind it accepts. *)
Example teardown_accepts_ack_of_same_sequence :
  let run :=
    shutdown_le closer SHUT_RDWR
      (closer_world (wire_segment 501 101 CTL_ACK WIN_SIZE 0)
                    (wire_segment 501 102 CTL_FINACK WIN_SIZE 0)) in
  summary run = Some (3, CLOSED, 102, 502) /\
  sent_seq_ack run = Some [(be32 101, be32 501); (be32 102, be32 502)].
Proof.
  cbv zeta. repeat split; vm_compute; reflexivity.
Qed.

(** ** Data transfer *)


(** The scenario of the claim: 200 bytes to send on an established
    connection, and an ACK for 200 arriving.  Nothing is sent and the ACK
    is still unread after the call. *)
Example microtcp_send_leaves_ack_unread :
  let w := scenario 0 [arrival (wire_segment 501 200 CTL_ACK WIN_SIZE 0) peer_b]
             (fun _ => zeros RECVBUF_LEN) in
  option_map (fun run => (length (outbox (snd run)), length (inbox (snd run)),
                          seq_number (snd (fst run))))
    (microtcp_send (established 3 0 501 peer_b) (zeros 200) 200 0 w)
  = Some (0%nat, 1%nat, 0).
Proof.
  vm_compute. reflexivity.
Qed.

(** ** Bits and bytes *)

Lemma testbit_255 (m : Z) : Z.testbit 255 m = (0 <=? m) && (m <? 8).
Proof.
  destruct (Z.leb_spec 0 m); destruct (Z.ltb_spec m 8); cbn [andb].
  - change 255 with (Z.ones 8). apply Z.ones_spec_low. lia.
  - change 255 with (Z.ones 8). apply Z.ones_spec_high. lia.
  - apply Z.testbit_neg_r. lia.
  - apply Z.testbit_neg_r. lia.
Qed.

Lemma testbit_shiftl (a k m : Z) :
  0 <= k -> Z.testbit (Z.shiftl a k) m = Z.testbit a (m - k).
Proof.
  intros Hk. destruct (Z.leb_spec 0 m).
  - apply Z.shiftl_spec. assumption.
  - rewrite !Z.testbit_neg_r by lia. reflexivity.
Qed.

Lemma testbit_shiftr (a k m : Z) :
  0 <= k -> Z.testbit (Z.shiftr a k) m = (0 <=? m) && Z.testbit a (m + k).
Proof.
  intros Hk. destruct (Z.leb_spec 0 m); cbn [andb].
  - apply Z.shiftr_spec. assumption.
  - apply Z.testbit_neg_r. lia.
Qed.

Lemma testbit_mod_pow2 (a n m : Z) :
  0 <= n -> Z.testbit (a mod 2 ^ n) m = (m <? n) && Z.testbit a m.
Proof.
  intros Hn. destruct (Z.ltb_spec m n); cbn [andb].
  - destruct (Z.leb_spec 0 m).
    + apply Z.mod_pow2_bits_low. lia.
    + rewrite !Z.testbit_neg_r by lia. reflexivity.
  - apply Z.mod_pow2_bits_high. lia.
Qed.

Ltac bit_cases :=
  repeat match goal with
  | |- context [?a <? ?b] =>
      destruct (Z.ltb_spec a b); try (exfalso; lia)
  | |- context [?a <=? ?b] =>
      destruct (Z.leb_spec a b); try (exfalso; lia)
  end.

Ltac bits :=
  apply Z.bits_inj'; intros n Hn;
  repeat first
    [ rewrite Z.lor_spec | rewrite Z.land_spec
    | rewrite testbit_shiftl by lia | rewrite testbit_shiftr by lia
    | rewrite testbit_mod_pow2 by lia | rewrite testbit_255 ];
  bit_cases; cbn [andb orb];
  rewrite ?andb_false_r, ?andb_true_r, ?orb_false_r, ?orb_true_r;
  cbn [andb orb];
  try reflexivity;
  try (f_equal; lia).

Lemma bswap32_involutive (x : Z) : bswap32 (bswap32 x) = u32 x.
Proof.
  unfold bswap32, u32. bits.
Qed.

Lemma bswap16_involutive (x : Z) : bswap16 (bswap16 x) = u16 x.
Proof.
  unfold bswap16, u16. bits.
Qed.

Lemma testbit_1 (m : Z) : Z.testbit 1 m = (m =? 0).
Proof.
  destruct (Z.eqb_spec m 0) as [-> | Hm]; [reflexivity |].
  destruct (Z.leb_spec 0 m).
  - change 1 with (Z.ones 1). apply Z.ones_spec_high. lia.
  - apply Z.testbit_neg_r. lia.
Qed.

Lemma store32_network (host : byte_order) (x : Z) :
  store32 host (htonl host x) = be32 x.
Proof.
  destruct host; unfold store32, htonl, be32, bswap32, u32;
    repeat (apply (f_equal2 (@cons Z)); [bits |]); reflexivity.
Qed.

Lemma store16_network (host : byte_order) (x : Z) :
  store16 host (htons host x) = be16 x.
Proof.
  destruct host; unfold store16, htons, be16, bswap16, u16;
    repeat (apply (f_equal2 (@cons Z)); [bits |]); reflexivity.
Qed.

Lemma store32_zero (host : byte_order) : store32 host 0 = be32 0.
Proof. destruct host; reflexivity. Qed.

Lemma read_all (l : memory) (n : Z) :
  Z.of_nat (length l) <= n -> read l n = l.
Proof.
  revert n. induction l as [| b l IH]; intros n Hn; [reflexivity |].
  cbn [read]. cbn [length] in Hn.
  destruct (Z.leb_spec n 0); [lia |].
  f_equal. apply IH. lia.
Qed.

(** X3: The bytes of a header built by [make_header] are the same on a
    little-endian and on a big-endian host: every field in network byte
    order, the control and reserved fields zero, and last the CRC of those
    bytes followed by four zero bytes, in network byte order too. *)
Theorem make_header_wire_image :
  forall host crc32 seq ack window data_len ACK RST SYN FIN,
    header_bytes host
      (make_header host crc32 seq ack window data_len ACK RST SYN FIN) =
    let fields := be32 seq ++ be32 ack ++ be16 0 ++ be16 window ++
                  be32 data_len ++ be32 0 ++ be32 0 ++ be32 0 in
    fields ++ be32 (crc32 (fields ++ be32 0)).
Proof.
  intros. unfold make_header, header_bytes, set_checksum.
  cbn [h_seq_number h_ack_number h_control h_window h_data_len
       h_future_use0 h_future_use1 h_future_use2 h_checksum].
  rewrite !store32_network, !store16_network, !store32_zero.
  rewrite read_all by (vm_compute; discriminate).
  cbv zeta. rewrite <- !app_assoc. reflexivity.
Qed.

Lemma load32_app (host : byte_order) (pre l : memory) :
  load32 host (pre ++ l) (length pre) = load32 host l 0.
Proof.
  induction pre as [| b pre IH]; [reflexivity | exact IH].
Qed.

Lemma load16_app (host : byte_order) (pre l : memory) :
  load16 host (pre ++ l) (length pre) = load16 host l 0.
Proof.
  induction pre as [| b pre IH]; [reflexivity | exact IH].
Qed.

Lemma decode_be32 (host : byte_order) (x : Z) (post : memory) :
  ntohl host (load32 host (be32 x ++ post) 0) = u32 x.
Proof.
  unfold load32, byte_at. cbn [be32 app nth Nat.add].
  destruct host; unfold ntohl, htonl, bswap32, u32; bits.
Qed.

Lemma decode_be16 (host : byte_order) (x : Z) (post : memory) :
  ntohs host (load16 host (be16 x ++ post) 0) = u16 x.
Proof.
  unfold load16, byte_at. cbn [be16 app nth Nat.add].
  destruct host; unfold ntohs, htons, bswap16, u16; bits.
Qed.

(** X4: Decoding what the encoder built gives back the sequence number, the
    acknowledgment number, the window and the data length, each cut to the
    width of its field, on either byte order; the control word and the
    reserved words are zero. *)
Theorem decode_make_header :
  forall host crc32 seq ack window data_len ACK RST SYN FIN tail,
    let h := get_hbo_header host
               (header_at host
                  (header_bytes host
                     (make_header host crc32 seq ack window data_len
                        ACK RST SYN FIN) ++ tail)) in
    h_seq_number h = u32 seq /\ h_ack_number h = u32 ack /\
    h_control h = 0 /\ h_window h = u16 window /\
    h_data_len h = u32 data_len /\
    h_future_use0 h = 0 /\ h_future_use1 h = 0 /\ h_future_use2 h = 0.
Proof.
  intros. unfold h. rewrite make_header_wire_image. cbv zeta.
  rewrite <- !app_assoc.
  unfold get_hbo_header, header_at.
  cbn [h_seq_number h_ack_number h_control h_window h_data_len
       h_future_use0 h_future_use1 h_future_use2 h_checksum].
  unfold load32, load16, byte_at, be32, be16. cbn [app nth Nat.add].
  repeat split; destruct host;
    unfold ntohl, ntohs, htonl, htons, bswap32, bswap16, u32, u16;
    first [reflexivity | bits].
Qed.

Lemma read_prefix (l l' : memory) :
  read (l ++ l') (Z.of_nat (length l)) = l.
Proof.
  induction l as [| b l IH].
  - destruct l'; reflexivity.
  - cbn [app length read].
    destruct (Z.leb_spec (Z.of_nat (S (length l))) 0); [exfalso; lia |].
    replace (Z.of_nat (S (length l)) - 1) with (Z.of_nat (length l)) by lia.
    rewrite IH. reflexivity.
Qed.

(** X5: The checksum the encoder stores is the CRC of the bytes it built with
    the checksum field set to zero. *)
Theorem make_header_checksum :
  forall host crc32 seq ack window data_len ACK RST SYN FIN,
    let bytes := header_bytes host
                   (make_header host crc32 seq ack window data_len
                      ACK RST SYN FIN) in
    h_checksum (get_hbo_header host (header_at host bytes)) =
    u32 (crc32 (read bytes (Z.of_nat offsetof_checksum) ++ [0; 0; 0; 0])).
Proof.
  intros. unfold bytes. rewrite make_header_wire_image. cbv zeta.
  set (fields := be32 seq ++ _).
  assert (Hlen : length fields = offsetof_checksum) by reflexivity.
  rewrite <- Hlen. rewrite read_prefix.
  unfold get_hbo_header. cbn [h_checksum]. unfold header_at.
  cbn [h_checksum]. rewrite <- Hlen. rewrite load32_app.
  rewrite <- (app_nil_r (be32 _)). apply decode_be32.
Qed.

(** ** Flag bits *)

Lemma get_bit_testbit (data pos : Z) :
  0 <= pos ->
  get_bit data pos = Z.b2z (Z.testbit data pos).
Proof.
  intros Hpos. unfold get_bit, u16.
  change 1 with (Z.ones 1). rewrite Z.land_ones by lia.
  change (2 ^ 1) with 2. rewrite <- Z.bit0_mod.
  rewrite Z.shiftr_spec by lia. cbn [Z.add].
  destruct (Z.testbit data pos); reflexivity.
Qed.

(** X1: [set_bit] sets the bit it is asked to set and no other: reading the
    same position back gives 1, reading another position gives what was
    there. *)
Theorem get_bit_set_bit :
  forall data pos q,
    0 <= pos < 16 -> 0 <= q < 16 ->
    get_bit (set_bit data pos) q = if q =? pos then 1 else get_bit data q.
Proof.
  intros data pos q Hpos Hq.
  rewrite !get_bit_testbit by lia. unfold set_bit, u16.
  rewrite testbit_mod_pow2, Z.lor_spec, testbit_shiftl, testbit_1 by lia.
  destruct (Z.ltb_spec q 16); [| lia]. cbn [andb].
  destruct (Z.eqb_spec q pos) as [-> | Hne].
  - rewrite Z.sub_diag. cbn. rewrite orb_true_r. reflexivity.
  - destruct (Z.eqb_spec (q - pos) 0); [lia |].
    rewrite orb_false_r. reflexivity.
Qed.

Lemma get_bit_set_bit_witness :
  get_bit (set_bit 1 2) 2 = (if 2 =? 2 then 1 else get_bit 1 2).
Proof.
  apply (get_bit_set_bit 1 2 2); lia.
Defined.

(** ** The classifier *)

(** X2: [is_header_control_valid] holds exactly when every flag that is asked
    for has its bit set in the control word (bit 0 ACK, bit 1 RST, bit 2
    SYN, bit 3 FIN); bits that are not asked for are not looked at. *)
Theorem is_header_control_valid_iff :
  forall h ACK RST SYN FIN,
    is_header_control_valid h ACK RST SYN FIN = true <->
    (u8 ACK <> 0 -> Z.testbit (h_control h) ACK_F = true) /\
    (u8 RST <> 0 -> Z.testbit (h_control h) RST_F = true) /\
    (u8 SYN <> 0 -> Z.testbit (h_control h) SYN_F = true) /\
    (u8 FIN <> 0 -> Z.testbit (h_control h) FIN_F = true).
Proof.
  intros. unfold is_header_control_valid, truthy.
  rewrite !get_bit_testbit by (vm_compute; discriminate).
  destruct (Z.eqb_spec (u8 ACK) 0), (Z.eqb_spec (u8 RST) 0),
           (Z.eqb_spec (u8 SYN) 0), (Z.eqb_spec (u8 FIN) 0);
    destruct (Z.testbit (h_control h) ACK_F),
             (Z.testbit (h_control h) RST_F),
             (Z.testbit (h_control h) SYN_F),
             (Z.testbit (h_control h) FIN_F);
    cbn; split; intros H; try reflexivity; try discriminate;
    try (repeat split; intros; first [reflexivity | contradiction]);
    destruct H as (H1 & H2 & H3 & H4);
    first [ discriminate (H1 ltac:(assumption))
          | discriminate (H2 ltac:(assumption))
          | discriminate (H3 ltac:(assumption))
          | discriminate (H4 ltac:(assumption)) ].
Qed.

(** X6: No header built by [make_header] passes the classifier once a flag is
    asked for: decoded again, its control word has no bit set, whatever
    flags the encoder was given. *)
Theorem make_header_never_classifies :
  forall host crc32 seq ack window data_len ACK RST SYN FIN tail
         ACK' RST' SYN' FIN',
    is_header_control_valid
      (get_hbo_header host
         (header_at host
            (header_bytes host
               (make_header host crc32 seq ack window data_len
                  ACK RST SYN FIN) ++ tail)))
      ACK' RST' SYN' FIN' =
    negb (truthy (u8 ACK') || truthy (u8 RST') ||
          truthy (u8 SYN') || truthy (u8 FIN')).
Proof.
  intros.
  destruct (decode_make_header host crc32 seq ack window data_len
              ACK RST SYN FIN tail) as (_ & _ & Hc & _).
  unfold is_header_control_valid. rewrite Hc.
  destruct (truthy (u8 ACK')), (truthy (u8 RST')),
           (truthy (u8 SYN')), (truthy (u8 FIN')); reflexivity.
Qed.

(** ** Addresses *)




Lemma strcmp_stops_at_nul (p x y : memory) :
  strcmp (p ++ 0 :: x) (p ++ 0 :: y) = 0.
Proof.
  induction p as [| c p IH]; cbn [app strcmp].
  - reflexivity.
  - rewrite Z.eqb_refl. destruct (c =? 0); auto.
Qed.

(** X8: [is_equal_addresses] compares [sa_data] as strings: two addresses of
    one family whose data agree up to and including a zero byte are taken
    as equal, whatever follows that byte. *)
Theorem is_equal_addresses_stops_at_nul :
  forall family p x y,
    is_equal_addresses (mkSockaddr family (p ++ 0 :: x))
                       (mkSockaddr family (p ++ 0 :: y)) = true.
Proof.
  intros. unfold is_equal_addresses. cbn [sa_family sa_data].
  rewrite Z.eqb_refl, strcmp_stops_at_nul. reflexivity.
Qed.

(** Port 256 on 10.1.1.7 and on 10.9.9.9: the second byte of the port is
    zero, and the two hosts are taken for one. *)
Example is_equal_addresses_two_hosts :
  is_equal_addresses (mkSockaddr 2 [1; 0; 10; 1; 1; 7])
                     (mkSockaddr 2 [1; 0; 10; 9; 9; 9]) = true.
Proof. reflexivity. Qed.

(** ** What the library puts on the wire *)

Lemma keeps_rand {B : Type} (f : world -> B) :
  (forall w n, f (set_rands w n) = f w) -> keeps f rand.
Proof. intros Hf w a w' H. inversion H. apply Hf. Qed.

Lemma keeps_malloc {B : Type} (f : world -> B) (n : Z) :
  (forall w k, f (set_mallocs w k) = f w) -> keeps f (malloc n).
Proof. intros Hf w a w' H. inversion H. apply Hf. Qed.

Lemma keeps_free {B : Type} (f : world -> B) (p : memory) :
  (forall w k, f (set_frees w k) = f w) -> keeps f (free p).
Proof. intros Hf w a w' H. inversion H. apply Hf. Qed.

Lemma keeps_uninitialised {A B : Type} (f : world -> B)
    (pick : indeterminate -> A) :
  keeps f (uninitialised pick).
Proof. intros w a w' H. inversion H. reflexivity. Qed.

Lemma keeps_sendto {B : Type} (f : world -> B) fd buf len dst dl :
  (forall w o, f (set_outbox w o) = f w) -> keeps f (sendto fd buf len dst dl).
Proof. intros Hf w a w' H. inversion H. apply Hf. Qed.

Lemma keeps_recvfrom {B : Type} (f : world -> B) fd buf src sl :
  (forall w i, f (set_inbox w i) = f w) -> keeps f (recvfrom fd buf src sl).
Proof.
  intros Hf w a w' H. unfold recvfrom in H.
  destruct (inbox w); [discriminate |]. inversion H. apply Hf.
Qed.

Lemma keeps_recv_loop {B S : Type} (f : world -> B)
    (body : rx_event -> S -> S) (again : S -> bool) (st : S) :
  (forall w i, f (set_inbox w i) = f w) -> keeps f (recv_loop body again st).
Proof.
  intros Hf w a w' H. unfold recv_loop in H.
  destruct (do_while_recv body again (inbox w) st) as [[st' rest] |];
    [| discriminate].
  inversion H. apply Hf.
Qed.

Lemma keeps_is_checksum_valid {B : Type} (f : world -> B)
    host crc32 recv_buf msg_len :
  (forall w k, f (set_mallocs w k) = f w) ->
  (forall w c, f (set_checks w c) = f w) ->
  keeps f (is_checksum_valid host crc32 recv_buf msg_len).
Proof.
  intros Hm Hc w a w' H. rewrite is_checksum_valid_unfold in H.
  cbv zeta in H. inversion H. rewrite Hc. apply Hm.
Qed.

Lemma triple_keeps {A B : Type} (f : world -> B) (P : B -> Prop) (m : M A) :
  keeps f m -> triple (fun w => P (f w)) m (fun _ w => P (f w)).
Proof.
  intros Hm w a w' HP H. rewrite (Hm w a w' H). exact HP.
Qed.

Lemma make_header_bare :
  forall host crc32 seq ack window data_len ACK RST SYN FIN,
    let bytes := read (header_bytes host
                         (make_header host crc32 seq ack window data_len
                            ACK RST SYN FIN)) sizeof_header in
    length bytes = 32%nat /\ no_control_bits bytes.
Proof.
  intros. unfold bytes. rewrite make_header_wire_image. cbv zeta.
  rewrite read_all by (vm_compute; discriminate).
  split; [reflexivity |].
  exists (be32 seq ++ be32 ack),
         (be16 window ++ be32 data_len ++ be32 0 ++ be32 0 ++ be32 0 ++
          be32 (crc32 ((be32 seq ++ be32 ack ++ be16 0 ++ be16 window ++
                        be32 data_len ++ be32 0 ++ be32 0 ++ be32 0) ++
                       be32 0))).
  split; [| reflexivity].
  rewrite <- !app_assoc. reflexivity.
Qed.

Lemma triple_sendto_header :
  forall o0 host crc32 fd seq ack window data_len ACK RST SYN FIN dst dl,
    triple (sent_bare o0)
      (sendto fd
         (header_bytes host
            (make_header host crc32 seq ack window data_len ACK RST SYN FIN))
         sizeof_header dst dl)
      (fun _ => sent_bare o0).
Proof.
  intros until dl. intros w a w' (new & Hnew & Hall) H.
  unfold sendto in H. inversion H. clear H.
  exists (new ++ [mkTx (read (header_bytes host
                                (make_header host crc32 seq ack window
                                   data_len ACK RST SYN FIN))
                          sizeof_header) dst]).
  cbn [outbox set_outbox]. rewrite Hnew, app_assoc. split; [reflexivity |].
  apply Forall_app. split; [assumption |].
  constructor; [| constructor]. apply make_header_bare.
Qed.

Create HintDb keeps.
#[local] Hint Resolve keeps_rand keeps_malloc keeps_free keeps_uninitialised
  keeps_sendto keeps_recvfrom keeps_recv_loop keeps_is_checksum_valid : keeps.

Ltac outbox_step :=
  first [ apply triple_sendto_header
        | apply (triple_keeps outbox (fun o => exists new, o = _ ++ new /\ Forall bare_header new));
          auto with keeps ].

Lemma perform_sends_bare_headers :
  forall host crc32 LEN WIN st sym op socket o0,
    triple (sent_bare o0) (perform host crc32 LEN WIN st sym op socket)
      (fun _ => sent_bare o0).
Proof.
  intros. destruct op; cbn [perform].
  - unfold microtcp_connect. walk outbox_step. all: assumption.
  - unfold microtcp_accept. walk outbox_step. all: assumption.
  - unfold microtcp_shutdown. walk outbox_step. all: assumption.
Qed.

(** X9: Every segment [microtcp_connect], [microtcp_accept] and
    [microtcp_shutdown] send is a header and nothing more, 32 bytes long,
    whose control field is zero: no segment the library sends carries a
    flag. *)
Theorem operations_send_bare_headers :
  forall host crc32 LEN WIN st sym op socket w r socket' w',
    perform host crc32 LEN WIN st sym op socket w = Some (r, socket', w') ->
    exists sent,
      outbox w' = outbox w ++ sent /\ Forall bare_header sent.
Proof.
  intros until w'. intros H.
  refine (perform_sends_bare_headers host crc32 LEN WIN st sym op socket
            (outbox w) w (r, socket') w' _ H).
  exists []. rewrite app_nil_r. split; [reflexivity | constructor].
Qed.

Lemma read_app_long (pre post : memory) (a b n : Z) :
  Z.of_nat (length pre) + 2 <= n ->
  read (pre ++ a :: b :: post) n =
  pre ++ a :: b :: read post (n - Z.of_nat (length pre) - 2).
Proof.
  revert n. induction pre as [| c pre IH]; intros n Hn.
  - cbn [app length read] in *.
    destruct (Z.leb_spec n 0); [exfalso; lia |].
    destruct (Z.leb_spec (n - 1) 0); [exfalso; lia |].
    do 3 f_equal. lia.
  - cbn [app length read] in *.
    destruct (Z.leb_spec n 0); [exfalso; lia |].
    f_equal. rewrite IH by lia. do 4 f_equal. lia.
Qed.

Lemma flagless_control :
  forall host buf ev,
    flagless_arrival ev ->
    h_control
      (get_hbo_header host
         (header_at host (memcpy buf (rx_data ev) (rx_ret ev)))) = 0.
Proof.
  intros host buf ev (Hret & pre & post & Hdata & Hlen).
  unfold memcpy. rewrite Hdata, read_app_long by lia.
  rewrite <- app_assoc. unfold get_hbo_header, header_at. cbn [h_control].
  change 8%nat with (length pre) at 1 || rewrite <- Hlen.
  rewrite load16_app. destruct host; reflexivity.
Qed.

Lemma do_while_recv_flagless :
  forall host evs st,
    Forall flagless_arrival evs ->
    do_while_recv (recv_syn host) no_syn evs st = None.
Proof.
  intros host evs. induction evs as [| ev evs IH]; intros st Hall.
  - reflexivity.
  - inversion Hall as [| ? ? Hev Hrest]; subst.
    cbn [do_while_recv].
    destruct st as [[[[r buf] src] len] syn].
    unfold recv_syn at 1, deliver.
    pose proof Hev as (Hret & _).
    destruct (Z.leb_spec 0 (rx_ret ev)); [| exfalso; lia].
    destruct (Z.ltb_spec 0 (rx_ret ev)); [| exfalso; lia].
    unfold no_syn at 1, is_header_control_valid.
    rewrite (flagless_control host buf ev Hev).
    cbn. apply IH. assumption.
Qed.

(** X10: [microtcp_accept] does not return while the datagrams that arrive, of
    ten bytes or more, have a zero control field: it reads them one after
    the other and goes on waiting, without failing. *)
Theorem accept_waits_through_flagless_segments :
  forall host crc32 LEN WIN sym socket a l w,
    Forall flagless_arrival (inbox w) ->
    microtcp_accept host crc32 LEN WIN sym socket a l w = None.
Proof.
  intros until w. intros Hall.
  unfold microtcp_accept, bind, uninitialised, recv_loop, malloc.
  sim. rewrite do_while_recv_flagless by assumption. reflexivity.
Qed.

Lemma arrivals_flagless (src : sockaddr) (sent : list tx_event) :
  Forall bare_header sent ->
  Forall flagless_arrival (map (fun t => arrival (tx_data t) src) sent).
Proof.
  intros Hall. induction Hall as [| t sent (Hlen & Hctl) _ IH];
    cbn [map]; constructor; [| assumption].
  split; [| exact Hctl].
  unfold arrival. cbn [rx_ret]. rewrite Hlen. vm_compute. discriminate.
Qed.

(** X11: Two ends running this library cannot open a connection: whatever an
    operation of one end has sent, the SYN of [microtcp_connect] first of
    all, [microtcp_accept] at the other end reads it and goes on waiting;
    it never returns on such datagrams. *)
Theorem accept_never_takes_what_the_library_sends :
  forall host crc32 LEN WIN st sym op socket w r socket' w' sent
         socket2 a l w2 src,
    perform host crc32 LEN WIN st sym op socket w = Some (r, socket', w') ->
    outbox w' = outbox w ++ sent ->
    inbox w2 = map (fun t => arrival (tx_data t) src) sent ->
    microtcp_accept host crc32 LEN WIN sym socket2 a l w2 = None.
Proof.
  intros until src. intros Hrun Hsent Hin.
  assert (Hbare : Forall bare_header sent).
  { destruct (perform_sends_bare_headers host crc32 LEN WIN st sym op socket
                (outbox w) w (r, socket') w') as (new & Hnew & Hall);
      [exists []; rewrite app_nil_r; split; [reflexivity | constructor]
      | exact Hrun |].
    rewrite Hnew in Hsent. apply app_inv_head in Hsent. subst. exact Hall. }
  unfold microtcp_accept, bind, uninitialised, recv_loop, malloc.
  sim. rewrite Hin, do_while_recv_flagless by (apply arrivals_flagless; exact Hbare).
  reflexivity.
Qed.

(** ** Datagrams from another address *)

Lemma do_while_recv_foreign :
  forall addr evs st,
    Forall (fun ev => 0 <= rx_ret ev /\
                      is_equal_addresses addr (rx_src ev) = false) evs ->
    do_while_recv recv_into (not_from addr) evs st = None.
Proof.
  intros addr evs. induction evs as [| ev evs IH]; intros st Hall.
  - reflexivity.
  - inversion Hall as [| ? ? (Hret & Hsrc) Hrest]; subst.
    cbn [do_while_recv].
    destruct st as [[[r buf] src] len].
    unfold recv_into at 1, deliver.
    destruct (Z.leb_spec 0 (rx_ret ev)); [| exfalso; lia].
    unfold not_from at 1. rewrite Hsrc. cbn [negb].
    apply IH. assumption.
Qed.

(** X12: Once its SYN is out, [microtcp_connect] does not return while the
    datagrams received come from addresses other than the target: they are
    read and dropped, and the connection is not marked failed. *)
Theorem connect_waits_through_foreign_datagrams :
  forall host crc32 LEN WIN st socket addr addr_len w,
    sendto_result w (length (outbox w)) = sizeof_header ->
    Forall (fun ev => 0 <= rx_ret ev /\
                      is_equal_addresses addr (rx_src ev) = false) (inbox w) ->
    microtcp_connect host crc32 LEN WIN st socket addr addr_len w = None.
Proof.
  intros until w. intros Hsent Hall.
  unfold microtcp_connect, bind, uninitialised, rand, sendto, recv_loop, ret.
  sim. rewrite Hsent. sim. rewrite Z.eqb_refl. sim.
  rewrite do_while_recv_foreign by assumption. reflexivity.
Qed.

(** ** The states and the memory an operation leaves *)

Lemma perform_final_state :
  forall host crc32 LEN WIN st sym op socket,
    triple (fun _ => True) (perform host crc32 LEN WIN st sym op socket)
      (fun x _ =>
         match op with
         | Connect _ _ =>
             state (snd x) = ESTABLISHED \/ state (snd x) = INVALID \/
             state (snd x) = st
         | Accept _ _ =>
             state (snd x) = ESTABLISHED \/ state (snd x) = INVALID
         | Shutdown how =>
             if how =? SHUT_RDWR
             then state (snd x) = CLOSED \/ state (snd x) = INVALID
             else snd x = socket
         end).
Proof.
  intros. destruct op; cbn [perform].
  - unfold microtcp_connect. walk ltac:(apply triple_any).
    all: cbn; auto.
  - unfold microtcp_accept. walk ltac:(apply triple_any).
    all: cbn; auto.
  - unfold microtcp_shutdown. walk ltac:(apply triple_any).
    all: cbn; auto.
Qed.

(** X13: The state an operation leaves.  [microtcp_accept] returns with the
    connection ESTABLISHED or INVALID and nothing else;
    [microtcp_connect] with ESTABLISHED, INVALID or the state of its
    elided assignment; [microtcp_shutdown] with CLOSED or INVALID when it
    is asked for SHUT_RDWR, and with the connection untouched otherwise:
    the state CLOSING_BY_HOST it passes through is never what it returns
    with. *)
Theorem operations_final_state :
  forall host crc32 LEN WIN st sym op socket w r socket' w',
    perform host crc32 LEN WIN st sym op socket w = Some (r, socket', w') ->
    match op with
    | Connect _ _ =>
        state socket' = ESTABLISHED \/ state socket' = INVALID \/
        state socket' = st
    | Accept _ _ => state socket' = ESTABLISHED \/ state socket' = INVALID
    | Shutdown how =>
        if how =? SHUT_RDWR
        then state socket' = CLOSED \/ state socket' = INVALID
        else socket' = socket
    end.
Proof.
  intros until w'. intros H.
  exact (perform_final_state host crc32 LEN WIN st sym op socket
           w (r, socket') w' I H).
Qed.

Lemma triple_free_frees (f0 : nat) (p : memory) :
  triple (fun w => frees w = f0) (free p) (fun _ w => frees w = S f0).
Proof.
  intros w a w' HP H. inversion H. cbn [frees set_frees]. congruence.
Qed.

Ltac frees_step :=
  first [ apply triple_free_frees
        | match goal with
          | |- triple (fun w => frees w = ?f) _ _ =>
              apply (triple_keeps frees (fun n => n = f)); auto with keeps
          end ].

Lemma perform_frees :
  forall host crc32 LEN WIN st sym op socket f0,
    triple (fun w => frees w = f0)
      (perform host crc32 LEN WIN st sym op socket)
      (fun x w' =>
         (state (snd x) = CLOSED /\ frees w' = S f0 /\
          op = Shutdown SHUT_RDWR) \/
         (frees w' = f0 /\
          (op = Shutdown SHUT_RDWR -> state (snd x) = INVALID))).
Proof.
  intros. destruct op; cbn [perform].
  - unfold microtcp_connect. walk frees_step.
    all: right; split; [assumption | discriminate].
  - unfold microtcp_accept. walk frees_step.
    all: right; split; [assumption | discriminate].
  - unfold microtcp_shutdown.
    destruct (Z.eqb_spec how SHUT_RDWR) as [-> | Hhow].
    + walk frees_step.
      all: first [ right; split; [assumption | reflexivity]
                 | left; split; [reflexivity | split; [assumption | reflexivity]] ].
    + walk frees_step. right. split; [assumption |].
      intros E. inversion E. contradiction.
Qed.

(** X14: The receive buffer is released once, by [microtcp_shutdown] asked for
    SHUT_RDWR and on the one path that ends CLOSED, and nowhere else: on
    every failure path of the three operations, and in every
    [microtcp_connect] and [microtcp_accept], nothing is released, the
    blocks allocated for the checksum validations included. *)
Theorem receive_buffer_released_only_when_closed :
  forall host crc32 LEN WIN st sym op socket w r socket' w',
    perform host crc32 LEN WIN st sym op socket w = Some (r, socket', w') ->
    (state socket' = CLOSED /\ frees w' = S (frees w) /\
     op = Shutdown SHUT_RDWR) \/
    (frees w' = frees w /\
     (op = Shutdown SHUT_RDWR -> state socket' = INVALID)).
Proof.
  intros until w'. intros H.
  exact (perform_frees host crc32 LEN WIN st sym op socket (frees w)
           w (r, socket') w' eq_refl H).
Qed.

Lemma triple_malloc_count (f0 m : nat) (n : Z) :
  triple (fun w => frees w = f0 /\ (m <= mallocs w)%nat) (malloc n)
    (fun _ w => frees w = f0 /\ (S m <= mallocs w)%nat).
Proof.
  intros w a w' (Hf & Hm) H. inversion H. cbn. lia.
Qed.

Lemma triple_is_checksum_valid_count (f0 m : nat) host crc32 buf len :
  triple (fun w => frees w = f0 /\ (m <= mallocs w)%nat)
    (is_checksum_valid host crc32 buf len)
    (fun _ w => frees w = f0 /\ (S m <= mallocs w)%nat).
Proof.
  intros w a w' (Hf & Hm) H. rewrite is_checksum_valid_unfold in H.
  cbv zeta in H. inversion H. cbn. lia.
Qed.

Lemma triple_keeps_count {A : Type} (f0 m : nat) (c : M A) :
  keeps frees c -> keeps mallocs c ->
  triple (fun w => frees w = f0 /\ (m <= mallocs w)%nat) c
    (fun _ w => frees w = f0 /\ (m <= mallocs w)%nat).
Proof.
  intros Hf Hm w a w' HP H.
  rewrite (Hf w a w' H), (Hm w a w' H). exact HP.
Qed.

Ltac count_step :=
  first [ apply triple_malloc_count
        | apply triple_is_checksum_valid_count
        | apply triple_keeps_count; auto with keeps ].

Lemma accept_counts :
  forall host crc32 LEN WIN sym socket a l f0 m,
    triple (fun w => frees w = f0 /\ (m <= mallocs w)%nat)
      (microtcp_accept host crc32 LEN WIN sym socket a l)
      (fun _ w' => frees w' = f0 /\ (S (S m) <= mallocs w')%nat).
Proof.
  intros. unfold microtcp_accept. walk count_step.
  all: match goal with H : _ /\ _ |- _ => destruct H; split; [assumption | lia] end.
Qed.

(** X15: Every call of [microtcp_accept] that returns, failed ones included,
    has allocated a receive buffer and at least one block for a checksum
    validation, and has released nothing: a call that ends INVALID leaves
    the buffer it allocated behind. *)
Theorem accept_allocates_and_never_releases :
  forall host crc32 LEN WIN sym socket a l w r socket' w',
    microtcp_accept host crc32 LEN WIN sym socket a l w
      = Some (r, socket', w') ->
    frees w' = frees w /\ (mallocs w + 2 <= mallocs w')%nat.
Proof.
  intros until w'. intros H.
  destruct (accept_counts host crc32 LEN WIN sym socket a l (frees w)
              (mallocs w) w (r, socket') w') as (Hf & Hm);
    [split; [reflexivity | lia] | exact H |].
  split; [exact Hf | lia].
Qed.

(** ** What a completed handshake leaves *)

Lemma header_bytes_whole (host : byte_order) (h : microtcp_header_t) :
  read (header_bytes host h) sizeof_header = header_bytes host h.
Proof.
  apply read_all. destruct host; vm_compute; discriminate.
Qed.

Lemma connect_completed_path :
  forall host crc32 LEN WIN st socket addr addr_len w synack,
    accepts_synack host crc32 socket addr w synack ->
    h_ack_number synack = u32 (u32 (rand_result w (rands w)) + 1) ->
    exists socket' w',
      microtcp_connect host crc32 LEN WIN st socket addr addr_len w =
        Some (sd socket, socket', w') /\
      outbox w' = outbox w ++
        [mkTx (header_bytes host
                 (make_header host crc32 (u32 (rand_result w (rands w)))
                    0 0 0 0 0 1 0)) addr;
         mkTx (header_bytes host
                 (make_header host crc32
                    (u32 (u32 (rand_result w (rands w)) + 1))
                    (u32 (h_seq_number synack + 1)) WIN 0 1 0 0 0)) addr] /\
      packets_send socket' = u64 (packets_send socket + 1) /\
      bytes_send socket' = u64 (bytes_send socket + sizeof_header) /\
      packets_received socket' = packets_received socket /\
      bytes_received socket' = bytes_received socket /\
      address socket' = addr /\ address_len socket' = addr_len /\
      recvbuf socket' = fresh_block (junk w) (S (mallocs w)) /\
      init_win_size socket' = init_win_size socket /\
      curr_win_size socket' = curr_win_size socket.
Proof.
  intros until synack.
  intros (n & reply & src & srclen & rest &
          Hsyn & Hack & Hloop & Hn & Hdec & Hv & Hc) Ha.
  subst synack.
  unfold microtcp_connect, bind, uninitialised, rand, sendto, recv_loop,
    ret, malloc.
  sim. rewrite Hsyn. sim. rewrite Z.eqb_refl. sim. rewrite Hloop. sim.
  destruct (n <=? 0) eqn:En; [apply Z.leb_le in En; lia |].
  rewrite is_checksum_valid_unfold. sim.
  unfold verdict_in in Hv. rewrite is_checksum_valid_unfold in Hv.
  cbn [option_map fst] in Hv. inversion Hv as [Hv']. rewrite Hv'. sim.
  rewrite Hc, Ha, Z.eqb_refl. sim.
  rewrite length_app, Nat.add_comm. sim. rewrite Hack, Z.eqb_refl. sim.
  eexists _, _. split; [reflexivity |]. sim.
  rewrite !header_bytes_whole, <- app_assoc.
  repeat split.
Qed.

(** X16: When the handshake of [microtcp_connect] completes, two segments have
    gone out, the SYN with the initial sequence number and the ACK with
    that number plus one, acknowledging the peer's sequence number plus
    one and advertising MICROTCP_WIN_SIZE; the statistics count the SYN
    alone and nothing received; the target address is recorded as the peer and a fresh receive
    buffer is installed; the window fields are left as they were, the
    window in the SYN+ACK is not recorded. *)
Theorem connect_completed :
  forall host crc32 LEN WIN st socket addr addr_len w synack,
    accepts_synack host crc32 socket addr w synack ->
    h_ack_number synack = u32 (u32 (rand_result w (rands w)) + 1) ->
    exists socket' w',
      microtcp_connect host crc32 LEN WIN st socket addr addr_len w =
        Some (sd socket, socket', w') /\
      outbox w' = outbox w ++
        [mkTx (header_bytes host
                 (make_header host crc32 (u32 (rand_result w (rands w)))
                    0 0 0 0 0 1 0)) addr;
         mkTx (header_bytes host
                 (make_header host crc32
                    (u32 (u32 (rand_result w (rands w)) + 1))
                    (u32 (h_seq_number synack + 1)) WIN 0 1 0 0 0)) addr] /\
      packets_send socket' = u64 (packets_send socket + 1) /\
      bytes_send socket' = u64 (bytes_send socket + sizeof_header) /\
      packets_received socket' = packets_received socket /\
      bytes_received socket' = bytes_received socket /\
      address socket' = addr /\ address_len socket' = addr_len /\
      recvbuf socket' = fresh_block (junk w) (S (mallocs w)) /\
      init_win_size socket' = init_win_size socket /\
      curr_win_size socket' = curr_win_size socket.
Proof.
  intros until synack. intros Hacc Hack.
  exact (connect_completed_path host crc32 LEN WIN st socket addr addr_len
           w synack Hacc Hack).
Qed.


(** ** Shutdown, path by path *)

(** X18: If the datagram that answers the FIN+ACK does not carry the sequence
    number the connection expects, or does not acknowledge the very
    sequence number of the FIN+ACK, or lacks the ACK bit,
    [microtcp_shutdown] returns with the connection INVALID; it reads
    nothing more and releases nothing. *)
Theorem shutdown_bad_ack_is_fatal :
  forall host crc32 WIN socket w ev rest ack,
    shutdown_receives_ack host crc32 socket w ev rest ack ->
    h_seq_number ack <> ack_number socket
    \/ h_ack_number ack <> seq_number socket
    \/ is_header_control_valid ack 1 0 0 0 = false ->
    exists socket' w',
      microtcp_shutdown host crc32 WIN socket SHUT_RDWR w =
        Some (sd socket, socket', w') /\
      state socket' = INVALID /\
      seq_number socket' = seq_number socket /\
      inbox w' = rest /\ frees w' = frees w /\
      length (outbox w') = S (length (outbox w)).
Proof.
  intros until ack. intros (Hsent & Hin & Hret & Hv & Hdec) Hbad.
  unfold microtcp_shutdown, bind, sendto, recvfrom, ret, free.
  rewrite Z.eqb_refl. sim. rewrite Hsent. sim. rewrite Z.eqb_refl. sim.
  rewrite Hin. sim.
  unfold deliver.
  destruct (Z.leb_spec 0 (rx_ret ev)); [| exfalso; lia]. sim.
  destruct (rx_ret ev <=? 0) eqn:En; [apply Z.leb_le in En; lia |].
  rewrite is_checksum_valid_unfold. sim.
  unfold verdict_in in Hv. rewrite is_checksum_valid_unfold in Hv.
  cbn [option_map fst] in Hv. inversion Hv as [Hv']. rewrite Hv'. sim.
  rewrite <- Hdec.
  assert (Hcond :
    negb (h_seq_number ack =? ack_number socket)
    || negb (h_ack_number ack =? seq_number socket)
    || negb (is_header_control_valid ack 1 0 0 0) = true).
  { destruct Hbad as [H1 | [H2 | H3]].
    - apply Z.eqb_neq in H1. rewrite H1. reflexivity.
    - apply Z.eqb_neq in H2. rewrite H2. cbn [negb].
      rewrite orb_true_r. reflexivity.
    - rewrite H3. cbn [negb]. apply orb_true_r. }
  rewrite Hcond.
  eexists _, _. split; [reflexivity |]. sim.
  rewrite length_app, Nat.add_comm. repeat split.
Qed.

(** X19: When the peer has closed first (state CLOSING_BY_PEER),
    [microtcp_shutdown] is done after one exchange: its FIN+ACK and an
    ACK that carries the expected sequence number and acknowledges the
    sequence number of the FIN+ACK.  It ends CLOSED with seq_number
    incremented, the receive buffer released, no second datagram read, and
    the source of the ACK, whoever sent it, recorded as the peer. *)
Theorem shutdown_after_peer_closed :
  forall host crc32 WIN socket w ev rest ack,
    shutdown_receives_ack host crc32 socket w ev rest ack ->
    state socket = CLOSING_BY_PEER ->
    h_seq_number ack = ack_number socket ->
    h_ack_number ack = seq_number socket ->
    is_header_control_valid ack 1 0 0 0 = true ->
    exists socket' w',
      microtcp_shutdown host crc32 WIN socket SHUT_RDWR w =
        Some (sd socket, socket', w') /\
      state socket' = CLOSED /\
      seq_number socket' = u32 (seq_number socket + 1) /\
      ack_number socket' = ack_number socket /\
      address socket' = rx_src ev /\
      inbox w' = rest /\ frees w' = S (frees w) /\
      length (outbox w') = S (length (outbox w)).
Proof.
  intros until ack. intros (Hsent & Hin & Hret & Hv & Hdec) Hst Hs Ha Hc.
  unfold microtcp_shutdown, bind, sendto, recvfrom, ret, free.
  rewrite Z.eqb_refl. sim. rewrite Hsent. sim. rewrite Z.eqb_refl. sim.
  rewrite Hin. sim.
  unfold deliver.
  destruct (Z.leb_spec 0 (rx_ret ev)); [| exfalso; lia]. sim.
  destruct (rx_ret ev <=? 0) eqn:En; [apply Z.leb_le in En; lia |].
  rewrite is_checksum_valid_unfold. sim.
  unfold verdict_in in Hv. rewrite is_checksum_valid_unfold in Hv.
  cbn [option_map fst] in Hv. inversion Hv as [Hv']. rewrite Hv'. sim.
  rewrite <- Hdec, Hs, Ha, Hc, !Z.eqb_refl. sim. rewrite Hst. sim.
  eexists _, _. split; [reflexivity |]. sim.
  rewrite length_app, Nat.add_comm. repeat split.
Qed.

(** X20: The whole of [microtcp_shutdown] from any state but CLOSING_BY_PEER:
    after the ACK of its FIN+ACK it reads one more datagram, which must
    acknowledge the incremented sequence number and carry FIN and ACK,
    takes that segment's sequence number plus one as ack_number, answers
    with an ACK and ends CLOSED with the buffer released.  The answer
    counts as sent unless [sendto] returns a negative value: a partial
    send is not noticed. *)
Theorem shutdown_completed :
  forall host crc32 WIN socket w ev rest ack ev2 rest2,
    shutdown_receives_ack host crc32 socket w ev rest ack ->
    state socket <> CLOSING_BY_PEER ->
    h_seq_number ack = ack_number socket ->
    h_ack_number ack = seq_number socket ->
    is_header_control_valid ack 1 0 0 0 = true ->
    rest = ev2 :: rest2 ->
    0 < rx_ret ev2 ->
    let buf1 := memcpy (recvbuf socket) (rx_data ev) (rx_ret ev) in
    let buf2 := memcpy buf1 (rx_data ev2) (rx_ret ev2) in
    let finack := get_hbo_header host (header_at host buf2) in
    verdict_in (set_mallocs w (S (mallocs w)))
      (is_checksum_valid host crc32 buf2 (size_t_of (rx_ret ev2)))
      = Some true ->
    h_ack_number finack = u32 (seq_number socket + 1) ->
    is_header_control_valid finack 1 0 0 1 = true ->
    0 <= sendto_result w (S (length (outbox w))) ->
    exists socket' w',
      microtcp_shutdown host crc32 WIN socket SHUT_RDWR w =
        Some (sd socket, socket', w') /\
      state socket' = CLOSED /\
      seq_number socket' = u32 (seq_number socket + 1) /\
      ack_number socket' = u32 (h_seq_number finack + 1) /\
      address socket' = rx_src ev2 /\
      inbox w' = rest2 /\ frees w' = S (frees w) /\
      outbox w' = outbox w ++
        [mkTx (header_bytes host
                 (make_header host crc32 (seq_number socket)
                    (ack_number socket) WIN 0 1 0 0 1)) (address socket);
         mkTx (header_bytes host
                 (make_header host crc32 (u32 (seq_number socket + 1))
                    (u32 (h_seq_number finack + 1)) WIN 0 1 0 0 0))
              (rx_src ev2)].
Proof.
  intros until rest2.
  intros (Hsent & Hin & Hret & Hv & Hdec) Hst Hs Ha Hc Hrest Hret2
         buf1 buf2 finack Hv2 Hfa Hfc Hsent2.
  unfold microtcp_shutdown, bind, sendto, recvfrom, ret, free.
  rewrite Z.eqb_refl. sim. rewrite Hsent. sim. rewrite Z.eqb_refl. sim.
  rewrite Hin. sim.
  unfold deliver.
  destruct (Z.leb_spec 0 (rx_ret ev)); [| exfalso; lia]. sim.
  destruct (rx_ret ev <=? 0) eqn:En; [apply Z.leb_le in En; lia |].
  rewrite is_checksum_valid_unfold. sim.
  unfold verdict_in in Hv. rewrite is_checksum_valid_unfold in Hv.
  cbn [option_map fst] in Hv. inversion Hv as [Hv']. rewrite Hv'. sim.
  rewrite <- Hdec, Hs, Ha, Hc, !Z.eqb_refl. sim.
  assert (Hne : state_eqb (state socket) CLOSING_BY_PEER = false)
    by (destruct (state socket); try reflexivity; contradiction).
  rewrite Hne. sim. rewrite Hrest. sim.
  destruct (Z.leb_spec 0 (rx_ret ev2)); [| exfalso; lia]. sim.
  destruct (rx_ret ev2 <=? 0) eqn:En2; [apply Z.leb_le in En2; lia |].
  rewrite is_checksum_valid_unfold. sim.
  unfold verdict_in in Hv2. rewrite is_checksum_valid_unfold in Hv2.
  cbn [option_map fst] in Hv2. inversion Hv2 as [Hv2']. sim_in Hv2'.
  fold buf1. fold buf2. rewrite Hv2'. sim.
  fold finack. rewrite Hfa, Hfc, Z.eqb_refl. sim.
  rewrite length_app, Nat.add_comm. sim.
  destruct (Z.ltb_spec (sendto_result w (S (length (outbox w)))) 0);
    [exfalso; lia |].
  eexists _, _. split; [reflexivity |]. sim.
  rewrite !header_bytes_whole, <- app_assoc. repeat split.
Qed.

(** ** What decides a checksum validation *)

Lemma ntohl_load_store (host : byte_order) (c : Z) (post : memory) :
  ntohl host (load32 host (store32 host c ++ post) 0) = ntohl host c.
Proof.
  unfold load32, byte_at.
  destruct host; cbn [store32 app nth Nat.add];
    unfold ntohl, htonl, bswap32, u32; bits.
Qed.

Lemma block_with_checksum_load (host : byte_order) (c : Z) :
  ntohl host (load32 host (block_with_checksum host c) offsetof_checksum)
  = ntohl host c.
Proof.
  unfold block_with_checksum.
  change offsetof_checksum
    with (length (zeros (Z.of_nat offsetof_checksum))) at 2.
  rewrite load32_app, <- (app_nil_r (store32 host c)).
  apply ntohl_load_store.
Qed.

(** X21: Whether [is_checksum_valid] accepts a message is decided by the block
    [malloc] hands out and by nothing the sender can set: for every
    message and length there is a block with which the message is valid
    and a block with which it is not. *)
Theorem is_checksum_valid_decided_by_block :
  forall host crc32 recv_buf msg_len w,
    (exists block,
       verdict_in
         (with_blocks (fun _ => block) w)
         (is_checksum_valid host crc32 recv_buf msg_len) = Some true) /\
    (exists block,
       verdict_in
         (with_blocks (fun _ => block) w)
         (is_checksum_valid host crc32 recv_buf msg_len) = Some false).
Proof.
  intros. split.
  - exists (block_with_checksum host (crc32 (read recv_buf msg_len))).
    unfold verdict_in. rewrite is_checksum_valid_unfold.
    cbn [option_map fst with_blocks junk fresh_block mallocs].
    rewrite block_with_checksum_load, Z.eqb_refl. reflexivity.
  - destruct (Z.eq_dec (ntohl host (crc32 (read recv_buf msg_len))) 0)
      as [E | E].
    + exists (block_with_checksum host 1).
      unfold verdict_in. rewrite is_checksum_valid_unfold.
      cbn [option_map fst with_blocks junk fresh_block mallocs].
      rewrite block_with_checksum_load, E.
      destruct host; reflexivity.
    + exists (zeros 32).
      unfold verdict_in. rewrite is_checksum_valid_unfold.
      cbn [option_map fst with_blocks junk fresh_block mallocs].
      replace (ntohl host (load32 host (zeros 32) offsetof_checksum)) with 0
        by (destruct host; reflexivity).
      apply Z.eqb_neq in E. rewrite Z.eqb_sym, E. reflexivity.
Qed.

(** ** What [microtcp_connect] validates *)

Lemma triple_is_checksum_valid_first :
  forall host crc32 c0 j0 m0 recv_buf msg_len,
    triple (fun w => (checks w, junk w, mallocs w) = (c0, j0, m0))
      (is_checksum_valid host crc32 recv_buf msg_len)
      (fun v w =>
         checks w = c0 ++ [v] /\
         v = (ntohl host (load32 host (fresh_block j0 m0) offsetof_checksum)
              =? ntohl host (crc32 (read recv_buf msg_len)))).
Proof.
  intros until msg_len. intros w v w' HP H.
  inversion HP as [[Hc Hj Hm]]. clear HP.
  rewrite is_checksum_valid_unfold in H. cbv zeta in H.
  inversion H as [[Hv Hw]]. cbn [checks set_checks].
  split; reflexivity.
Qed.

Ltac first_verdict_step :=
  first [ apply triple_is_checksum_valid_first
        | match goal with
          | |- triple (fun w => (checks w, junk w, mallocs w) = ?t) _ _ =>
              apply (triple_keeps (fun w => (checks w, junk w, mallocs w))
                       (fun x => x = t)); auto with keeps
          | |- triple (fun w => checks w = ?c /\ ?E) _ _ =>
              apply (triple_keeps checks (fun x => x = c /\ E));
              auto with keeps
          end ].

Lemma connect_verdict :
  forall host crc32 LEN WIN st socket addr addr_len c0 j0 m0,
    triple (fun w => (checks w, junk w, mallocs w) = (c0, j0, m0))
      (microtcp_connect host crc32 LEN WIN st socket addr addr_len)
      (fun _ w' =>
         checks w' = c0 \/
         exists n,
           checks w' = c0 ++
             [ntohl host (load32 host (fresh_block j0 m0) offsetof_checksum)
              =? ntohl host (crc32 (read (recvbuf socket) (size_t_of n)))]).
Proof.
  intros. unfold microtcp_connect. walk first_verdict_step.
  all: match goal with
       | H : (checks _, _, _) = _ |- _ => left; inversion H; reflexivity
       | H : checks _ = _ /\ _ |- _ =>
           right; destruct H as (Hc & Hv); rewrite Hc, Hv; eexists; reflexivity
       end.
Qed.

(** X22: What [microtcp_connect] validates is not the reply.  The one checksum
    validation it makes is computed over the memory the connection's
    receive-buffer pointer referred to before the call, for the length of
    the reply, and compared with the block [malloc] hands out first; the
    reply itself, which sits in a local buffer, plays no part in the
    verdict. *)
Theorem connect_validates_old_receive_buffer :
  forall host crc32 LEN WIN st socket addr addr_len w r socket' w',
    microtcp_connect host crc32 LEN WIN st socket addr addr_len w =
      Some (r, socket', w') ->
    checks w' = checks w \/
    exists n v,
      verdict_in w
        (is_checksum_valid host crc32 (recvbuf socket) (size_t_of n))
        = Some v /\
      checks w' = checks w ++ [v].
Proof.
  intros until w'. intros H.
  destruct (connect_verdict host crc32 LEN WIN st socket addr addr_len
              (checks w) (junk w) (mallocs w) w (r, socket') w' eq_refl H)
    as [Hc | (n & Hc)].
  - left. exact Hc.
  - right. exists n. eexists. split; [| exact Hc].
    unfold verdict_in. rewrite is_checksum_valid_unfold. reflexivity.
Qed.

(** ** A new socket *)



(** ** The further properties at work *)

Lemma operations_send_bare_headers_witness :
  exists sent,
    outbox after_failed_syn = outbox syn_send_fails ++ sent /\
    Forall bare_header sent.
Proof.
  refine (operations_send_bare_headers LittleEndian crc32_ieee RECVBUF_LEN
            WIN_SIZE INVALID RECV_SYMBOL (Connect peer_b 16) initiator
            syn_send_fails 3 initiator_gave_up after_failed_syn _).
  vm_compute. reflexivity.
Defined.

Lemma accept_waits_through_flagless_segments_witness :
  accept_le responder peer_a 16
    (scenario 500 [arrival initiator_syn peer_b]
       (fun _ => zeros RECVBUF_LEN)) = None.
Proof.
  refine (accept_waits_through_flagless_segments LittleEndian crc32_ieee
            RECVBUF_LEN WIN_SIZE RECV_SYMBOL responder peer_a 16
            (scenario 500 [arrival initiator_syn peer_b]
               (fun _ => zeros RECVBUF_LEN)) _).
  constructor; [| constructor]. split.
  - vm_compute. discriminate.
  - exists (read initiator_syn 8), (skip initiator_syn 10).
    split; vm_compute; reflexivity.
Defined.

Lemma accept_never_takes_what_the_library_sends_witness :
  accept_le responder peer_a 16
    (scenario 500 [arrival initiator_syn peer_b]
       (fun _ => zeros RECVBUF_LEN)) = None.
Proof.
  refine (accept_never_takes_what_the_library_sends LittleEndian crc32_ieee
            RECVBUF_LEN WIN_SIZE INVALID RECV_SYMBOL (Connect peer_b 16)
            initiator syn_send_fails 3 initiator_gave_up after_failed_syn
            [mkTx initiator_syn peer_b]
            responder peer_a 16
            (scenario 500 [arrival initiator_syn peer_b]
               (fun _ => zeros RECVBUF_LEN)) peer_b _ _ _).
  - vm_compute. reflexivity.
  - reflexivity.
  - reflexivity.
Defined.

Lemma connect_waits_through_foreign_datagrams_witness :
  connect_le initiator peer_b 16
    (scenario 100 [arrival synack_500_101 peer_a] initiator_blocks) = None.
Proof.
  refine (connect_waits_through_foreign_datagrams LittleEndian crc32_ieee
            RECVBUF_LEN WIN_SIZE INVALID initiator peer_b 16
            (scenario 100 [arrival synack_500_101 peer_a] initiator_blocks)
            _ _).
  - reflexivity.
  - constructor; [| constructor]. split.
    + vm_compute. discriminate.
    + vm_compute. reflexivity.
Defined.

Lemma operations_final_state_witness :
  state initiator_gave_up = ESTABLISHED \/
  state initiator_gave_up = INVALID \/
  state initiator_gave_up = INVALID.
Proof.
  refine (operations_final_state LittleEndian crc32_ieee RECVBUF_LEN
            WIN_SIZE INVALID RECV_SYMBOL (Connect peer_b 16) initiator
            syn_send_fails 3 initiator_gave_up after_failed_syn _).
  vm_compute. reflexivity.
Defined.

Lemma receive_buffer_released_only_when_closed_witness :
  (state initiator_gave_up = CLOSED /\
   frees after_failed_syn = S (frees syn_send_fails) /\
   Connect peer_b 16 = Shutdown SHUT_RDWR) \/
  (frees after_failed_syn = frees syn_send_fails /\
   (Connect peer_b 16 = Shutdown SHUT_RDWR ->
    state initiator_gave_up = INVALID)).
Proof.
  refine (receive_buffer_released_only_when_closed LittleEndian crc32_ieee
            RECVBUF_LEN WIN_SIZE INVALID RECV_SYMBOL (Connect peer_b 16)
            initiator syn_send_fails 3 initiator_gave_up after_failed_syn _).
  vm_compute. reflexivity.
Defined.

Lemma accept_allocates_and_never_releases_witness :
  frees after_rejected_syn = frees (twice_with_zero_blocks 500 syn_100 peer_a)
  /\ (mallocs (twice_with_zero_blocks 500 syn_100 peer_a) + 2
      <= mallocs after_rejected_syn)%nat.
Proof.
  refine (accept_allocates_and_never_releases LittleEndian crc32_ieee
            RECVBUF_LEN WIN_SIZE RECV_SYMBOL responder peer_a 16
            (twice_with_zero_blocks 500 syn_100 peer_a)
            4 responder_gave_up after_rejected_syn _).
  vm_compute. reflexivity.
Defined.

Lemma connect_validates_old_receive_buffer_witness :
  checks after_rejected_reply =
    checks (twice_with_zero_blocks 100 synack_500_101 peer_b) \/
  exists n v,
    verdict_in (twice_with_zero_blocks 100 synack_500_101 peer_b)
      (is_checksum_valid LittleEndian crc32_ieee (recvbuf initiator)
         (size_t_of n)) = Some v /\
    checks after_rejected_reply =
      checks (twice_with_zero_blocks 100 synack_500_101 peer_b) ++ [v].
Proof.
  refine (connect_validates_old_receive_buffer LittleEndian crc32_ieee
            RECVBUF_LEN WIN_SIZE INVALID initiator peer_b 16
            (twice_with_zero_blocks 100 synack_500_101 peer_b)
            3 initiator_rejected after_rejected_reply _).
  vm_compute. reflexivity.
Defined.

Lemma connect_completed_witness :
  exists socket' w',
    connect_le initiator peer_b 16 (initiator_world synack_500_101) =
      Some (3, socket', w') /\
    outbox w' =
      [mkTx initiator_syn peer_b;
       mkTx (header_bytes LittleEndian
               (make_header LittleEndian crc32_ieee 101 501 WIN_SIZE
                  0 1 0 0 0)) peer_b] /\
    packets_send socket' = 1 /\ bytes_send socket' = 32 /\
    packets_received socket' = 0 /\ bytes_received socket' = 0 /\
    address socket' = peer_b /\ address_len socket' = 16 /\
    recvbuf socket' = zeros RECVBUF_LEN /\
    init_win_size socket' = 0 /\ curr_win_size socket' = 0.
Proof.
  refine (connect_completed LittleEndian crc32_ieee RECVBUF_LEN WIN_SIZE
            INVALID initiator peer_b 16 (initiator_world synack_500_101)
            (get_hbo_header LittleEndian
               (header_at LittleEndian synack_500_101)) _ _).
  - exists 32, (synack_500_101 ++ zeros 32), peer_b, 16, [].
    repeat split; vm_compute; reflexivity.
  - vm_compute. reflexivity.
Defined.


Lemma shutdown_bad_ack_is_fatal_witness :
  exists socket' w',
    shutdown_le closer SHUT_RDWR (closer_world ack_501_102 finack_501_102) =
      Some (3, socket', w') /\
    state socket' = INVALID /\
    seq_number socket' = 101 /\
    inbox w' = [arrival finack_501_102 peer_b] /\ frees w' = 0%nat /\
    length (outbox w') = 1%nat.
Proof.
  refine (shutdown_bad_ack_is_fatal LittleEndian crc32_ieee WIN_SIZE closer
            (closer_world ack_501_102 finack_501_102)
            (arrival ack_501_102 peer_b) [arrival finack_501_102 peer_b]
            (get_hbo_header LittleEndian
               (header_at LittleEndian ack_501_102)) _ _).
  - repeat split; vm_compute; reflexivity.
  - right. left. vm_compute. discriminate.
Defined.

Lemma shutdown_after_peer_closed_witness :
  exists socket' w',
    shutdown_le peer_closed SHUT_RDWR peer_closed_world =
      Some (4, socket', w') /\
    state socket' = CLOSED /\
    seq_number socket' = 502 /\ ack_number socket' = 102 /\
    address socket' = peer_a /\
    inbox w' = [] /\ frees w' = 1%nat /\ length (outbox w') = 1%nat.
Proof.
  refine (shutdown_after_peer_closed LittleEndian crc32_ieee WIN_SIZE
            peer_closed peer_closed_world
            (arrival ack_102_501 peer_a) []
            (get_hbo_header LittleEndian
               (header_at LittleEndian ack_102_501)) _ _ _ _ _).
  - repeat split; vm_compute; reflexivity.
  - reflexivity.
  - vm_compute. reflexivity.
  - vm_compute. reflexivity.
  - vm_compute. reflexivity.
Defined.

Lemma shutdown_completed_witness :
  exists socket' w',
    shutdown_le closer SHUT_RDWR (closer_world ack_501_101 finack_501_102) =
      Some (3, socket', w') /\
    state socket' = CLOSED /\
    seq_number socket' = 102 /\ ack_number socket' = 502 /\
    address socket' = peer_b /\
    inbox w' = [] /\ frees w' = 1%nat /\
    outbox w' =
      [mkTx (header_bytes LittleEndian
               (make_header LittleEndian crc32_ieee 101 501 WIN_SIZE
                  0 1 0 0 1)) peer_b;
       mkTx (header_bytes LittleEndian
               (make_header LittleEndian crc32_ieee 102 502 WIN_SIZE
                  0 1 0 0 0)) peer_b].
Proof.
  refine (shutdown_completed LittleEndian crc32_ieee WIN_SIZE closer
            (closer_world ack_501_101 finack_501_102)
            (arrival ack_501_101 peer_b) [arrival finack_501_102 peer_b]
            (get_hbo_header LittleEndian
               (header_at LittleEndian ack_501_101))
            (arrival finack_501_102 peer_b) []
            _ _ _ _ _ _ _ _ _ _ _).
  - repeat split; vm_compute; reflexivity.
  - discriminate.
  - vm_compute. reflexivity.
  - vm_compute. reflexivity.
  - vm_compute. reflexivity.
  - reflexivity.
  - vm_compute. reflexivity.
  - vm_compute. reflexivity.
  - vm_compute. reflexivity.
  - vm_compute. reflexivity.
  - vm_compute. discriminate.
Defined.

